(** * jsfuzzymind: fuzzy sets, weighted rules and the inference engine

    A shallow embedding of [index.cjs] (classes [FuzzySet], [FuzzyRule],
    [InferenceEngine]) and the properties stated about it.

    Numbers.  JavaScript numbers are binary64 floating-point numbers.  The
    code is embedded twice, operation for operation.

    Over exact rationals [Q] (the top level): [+], [*], [/] are [Qplus],
    [Qmult], [Qdiv]; [<=] and [>=] are [Qle_bool]; [>] is the negation of
    [<=]; [===] on numbers is [Qeq_bool].  This embedding carries the
    statements that do not depend on rounding: pointwise laws of the
    combinators, what a function reads, what a loop does when it cannot
    start or cannot stop, equalities between results of the same
    operations.  Every division in the source is guarded (or has a
    denominator [>= 1]), so the convention [x / 0 = 0] of [Q] is never
    exercised by the embedded code.

    Over binary64 numbers ([Module Binary64]): the numbers are Rocq's
    primitive floats, [+], [*], [/] round to nearest as in the source,
    [<=], [>], [>=] are false on NaN and [===] is numeric equality (+0
    equals -0, NaN equals nothing).  Every statement about accumulated
    sums, sampled points, termination or a returned number is made there
    ([Module Binary64Laws]).

    Loops.  [for (let x = min; x <= max; x += step)] need not terminate
    (a step of 0 or less, or a step too small to move [x]); the loop is
    embedded with fuel and [None] stands for a run that has not finished
    within the fuel.

    Default arguments ([step = 0.01], [weight = 1]) are filled in by the
    caller: the embedded functions take them explicitly. *)

From Stdlib Require Import String List Bool Arith Lia.
From Stdlib Require Import ZArith QArith Qminmax Qround Lqa Floats.
Import ListNotations.

#[local] Open Scope Q_scope.

(** ** JavaScript primitives used by the source *)

Module Math.
(** [Math.max(a, b)] and [Math.min(a, b)] on two numbers. *)
Definition max (a b : Q) : Q := if Qle_bool a b then b else a.
Definition min (a b : Q) : Q := if Qle_bool a b then a else b.
End Math.

(** [a > b] on numbers. *)
Definition Qgt_bool (a b : Q) : bool := negb (Qle_bool a b).
(** [a < b] on numbers. *)
Definition Qlt_bool (a b : Q) : bool := negb (Qle_bool b a).

(** Control leaving one iteration of a loop body: fall through to the
    next iteration, or [break]. *)
Inductive ctl (S : Type) : Type :=
| Next (s : S)
| Break (s : S).
Arguments Next {S} s.
Arguments Break {S} s.

(** [for (let x = x0; x <= max; x += step) body] over loop state [S]. *)
Fixpoint for_loop {S : Type} (fuel : nat) (x max step : Q)
         (body : Q -> S -> ctl S) (s : S) : option S :=
  match fuel with
  | O => None
  | Datatypes.S k =>
      if Qle_bool x max then
        match body x s with
        | Next s' => for_loop k (x + step) max step body s'
        | Break s' => Some s'
        end
      else Some s
  end.

(** ** fuzzySet.js *)

Record FuzzySet : Type := mkFuzzySet {
  name : string;
  membershipFunction : Q -> Q
}.

Definition membershipDegree (this : FuzzySet) (x : Q) : Q :=
  membershipFunction this x.

Definition union (this otherSet : FuzzySet) : FuzzySet :=
  mkFuzzySet ("Union(" ++ name this ++ ", " ++ name otherSet ++ ")")
    (fun x => Math.max (membershipFunction this x) (membershipFunction otherSet x)).

Definition intersection (this otherSet : FuzzySet) : FuzzySet :=
  mkFuzzySet ("Intersection(" ++ name this ++ ", " ++ name otherSet ++ ")")
    (fun x => Math.min (membershipFunction this x) (membershipFunction otherSet x)).

Definition complement (this : FuzzySet) : FuzzySet :=
  mkFuzzySet ("Complement(" ++ name this ++ ")")
    (fun x => 1 - membershipFunction this x).

Definition normalize (this : FuzzySet) : FuzzySet :=
  mkFuzzySet ("Normalized(" ++ name this ++ ")")
    (fun x => membershipFunction this x / Math.max 1 (membershipFunction this x)).

(** The two accumulators of the centroid loops. *)
Record centroid_acc : Type := mkCentroidAcc {
  numerator : Q;
  denominator : Q
}.

Definition centroid_result (a : centroid_acc) : Q :=
  if Qeq_bool (denominator a) 0 then 0 else numerator a / denominator a.

Definition centroid (fuel : nat) (this : FuzzySet) (min max step : Q) : option Q :=
  option_map centroid_result
    (for_loop fuel min max step
       (fun x a =>
          let mu := membershipFunction this x in
          Next (mkCentroidAcc (numerator a + x * mu) (denominator a + mu)))
       (mkCentroidAcc 0 0)).

(** ** fuzzyRule.js *)

(** The values a rule can produce: a consequence function may return
    anything; only strings and [FuzzySet] instances are told apart by the
    engine. *)
Inductive value : Type :=
| VString (s : string)
| VFuzzySet (A : FuzzySet)
| VNumber (q : Q)
| VOther.

Section Rules.

(** The input record handed to conditions and consequence functions. *)
Context {Input : Type}.

(** The [consequence] field: a [FuzzySet] instance or a function. *)
Inductive consequence_t : Type :=
| FixedSet (A : FuzzySet)
| Computed (f : Input -> value).

Record FuzzyRule : Type := mkFuzzyRule {
  condition : Input -> bool;
  consequence : consequence_t;
  weight : Q
}.

Record evaluation : Type := mkEvaluation {
  result : value;
  eweight : Q
}.

Definition evaluate (this : FuzzyRule) (inputs : Input) : option evaluation :=
  if condition this inputs then
    let result :=
      match consequence this with
      | FixedSet A => VFuzzySet A
      | Computed f => f inputs
      end in
    Some (mkEvaluation result (weight this))
  else None.

(** ** inferenceEngine.js *)

Record InferenceEngine : Type := mkInferenceEngine {
  rules : list FuzzyRule
}.

Definition priorityMapping (priority : value) : Q :=
  match priority with
  | VString s =>
      if String.eqb s "Urgent" then 3
      else if String.eqb s "High Priority" then 2
      else if String.eqb s "Medium Priority" then 1
      else 0
  | _ => 0
  end.

Definition reversePriorityMapping (score : Q) : string :=
  if Qle_bool 2.5 score then "Urgent"
  else if Qle_bool 1.5 score then "High Priority"
  else if Qle_bool 0.5 score then "Medium Priority"
  else "Low Priority".

(** [totalWeight] and [weightedSum], updated by the [forEach] callback. *)
Record aggregate_acc : Type := mkAggregateAcc {
  totalWeight : Q;
  weightedSum : Q
}.

Definition aggregate_step (a : aggregate_acc) (ev : evaluation) : aggregate_acc :=
  mkAggregateAcc (totalWeight a + eweight ev)
                 (weightedSum a + priorityMapping (result ev) * eweight ev).

Definition aggregateResults (results : list evaluation) : string :=
  match results with
  | [] => "Low Priority"
  | _ =>
      let a := fold_left aggregate_step results (mkAggregateAcc 0 0) in
      if Qgt_bool (totalWeight a) 0
      then reversePriorityMapping (weightedSum a / totalWeight a)
      else "Low Priority"
  end.

(** The [for ... of] loop of [infer]: matched evaluations are pushed in
    rule order. *)
Definition infer_results (rs : list FuzzyRule) (inputs : Input) : list evaluation :=
  fold_left
    (fun results rule =>
       match evaluate rule inputs with
       | Some ev => results ++ [ev]
       | None => results
       end)
    rs [].

Definition infer (this : InferenceEngine) (inputs : Input) : string :=
  aggregateResults (infer_results (rules this) inputs).

Definition instanceof_FuzzySet (c : consequence_t) : bool :=
  match c with
  | FixedSet _ => true
  | Computed _ => false
  end.

(** The array returned by [.map(...).filter(...)] holds only [FuzzySet]
    instances; its elements are given their type here. *)
Fixpoint as_FuzzySets (cs : list consequence_t) : list FuzzySet :=
  match cs with
  | [] => []
  | FixedSet A :: cs' => A :: as_FuzzySets cs'
  | Computed _ :: cs' => as_FuzzySets cs'
  end.

Definition getFuzzySetConsequences (this : InferenceEngine) : list FuzzySet :=
  as_FuzzySets (filter instanceof_FuzzySet (map consequence (rules this))).

(** The inner loop shared by the three defuzzifiers:
    [let mu = 0; for (const fuzzySet of fuzzySets) mu = Math.max(mu, ...)]. *)
Definition aggregate_mu (fuzzySets : list FuzzySet) (x : Q) : Q :=
  fold_left (fun mu fuzzySet => Math.max mu (membershipFunction fuzzySet x))
            fuzzySets 0.

Definition defuzzifyCentroid (fuel : nat) (this : InferenceEngine)
           (min max step : Q) : option Q :=
  let fuzzySets := getFuzzySetConsequences this in
  option_map centroid_result
    (for_loop fuel min max step
       (fun x a =>
          let mu := aggregate_mu fuzzySets x in
          Next (mkCentroidAcc (numerator a + x * mu) (denominator a + mu)))
       (mkCentroidAcc 0 0)).

Record mom_acc : Type := mkMomAcc {
  maxMu : Q;
  sumX : Q;
  count : nat
}.

Definition mom_step (mu x : Q) (a : mom_acc) : mom_acc :=
  if Qgt_bool mu (maxMu a) then mkMomAcc mu x 1
  else if Qeq_bool mu (maxMu a) then mkMomAcc (maxMu a) (sumX a + x) (S (count a))
  else a.

Definition mom_result (a : mom_acc) : Q :=
  match count a with
  | O => 0
  | _ => sumX a / inject_Z (Z.of_nat (count a))
  end.

Definition defuzzifyMOM (fuel : nat) (this : InferenceEngine)
           (min max step : Q) : option Q :=
  let fuzzySets := getFuzzySetConsequences this in
  option_map mom_result
    (for_loop fuel min max step
       (fun x a => Next (mom_step (aggregate_mu fuzzySets x) x a))
       (mkMomAcc 0 0 0)).

Record bisector_acc : Type := mkBisectorAcc {
  leftArea : Q;
  bisector : Q
}.

(** One iteration of the second loop of [defuzzifyBisector], at a point
    [x] where the aggregate curve is [mu]. *)
Definition bisector_step (totalArea step mu x : Q) (a : bisector_acc)
  : ctl bisector_acc :=
  let leftArea' := leftArea a + mu * step in
  if Qle_bool (totalArea / 2) leftArea'
  then Break (mkBisectorAcc leftArea' x)
  else Next (mkBisectorAcc leftArea' (bisector a)).

Definition defuzzifyBisector (fuel : nat) (this : InferenceEngine)
           (min max step : Q) : option Q :=
  let fuzzySets := getFuzzySetConsequences this in
  match for_loop fuel min max step
          (fun x totalArea => Next (totalArea + aggregate_mu fuzzySets x * step)) 0 with
  | None => None
  | Some totalArea =>
      option_map bisector
        (for_loop fuel min max step
           (fun x a => bisector_step totalArea step (aggregate_mu fuzzySets x) x a)
           (mkBisectorAcc 0 min))
  end.

End Rules.

Arguments consequence_t Input : clear implicits.
Arguments FuzzyRule Input : clear implicits.
Arguments InferenceEngine Input : clear implicits.

(** ** The reference example of the README *)

Record ticket : Type := mkTicket {
  urgency : Q;
  complexity : Q
}.

Definition urgencySet : FuzzySet :=
  mkFuzzySet "Urgency" (fun urgency =>
    if Qlt_bool urgency 3 then 0
    else if Qlt_bool urgency 7 then (urgency - 3) / 4
    else 1).

Definition complexitySet : FuzzySet :=
  mkFuzzySet "Complexity" (fun complexity =>
    if Qlt_bool complexity 2 then 0
    else if Qlt_bool complexity 5 then (complexity - 2) / 3
    else 1).

Definition example_rules : list (FuzzyRule ticket) :=
  [ mkFuzzyRule
      (fun inputs =>
         Qgt_bool (membershipDegree urgencySet (urgency inputs)) 0.7
         && Qgt_bool (membershipDegree complexitySet (complexity inputs)) 0.7)
      (FixedSet (mkFuzzySet "Urgent" (fun x => if Qle_bool 7 x then 1 else x / 7)))
      1;
    mkFuzzyRule
      (fun inputs => Qgt_bool (membershipDegree urgencySet (urgency inputs)) 0.5)
      (Computed (fun _ => VString "High Priority"))
      1;
    mkFuzzyRule
      (fun inputs => Qgt_bool (membershipDegree complexitySet (complexity inputs)) 0.5)
      (Computed (fun _ => VString "Medium Priority"))
      1;
    mkFuzzyRule
      (fun inputs =>
         Qle_bool (membershipDegree urgencySet (urgency inputs)) 0.5
         && Qle_bool (membershipDegree complexitySet (complexity inputs)) 0.5)
      (Computed (fun _ => VString "Low Priority"))
      1 ].

Definition example_engine : InferenceEngine ticket := mkInferenceEngine example_rules.

Definition example_ticket : ticket := mkTicket 8 6.

(** ** Specification vocabulary *)

Definition Qsum (l : list Q) : Q := fold_right Qplus 0 l.

Section RuleVocabulary.

Context {Input : Type}.

(** What a matching rule contributes as its result. *)
Definition rule_result (r : FuzzyRule Input) (inputs : Input) : value :=
  match consequence r with
  | FixedSet A => VFuzzySet A
  | Computed f => f inputs
  end.

(** The rules whose condition holds, in rule order. *)
Definition matched_rules (e : InferenceEngine Input) (inputs : Input)
  : list (FuzzyRule Input) :=
  filter (fun r => condition r inputs) (rules e).

(** sum(score * weight) over the matched rules. *)
Definition score_sum (e : InferenceEngine Input) (inputs : Input) : Q :=
  Qsum (map (fun r => priorityMapping (rule_result r inputs) * weight r)
            (matched_rules e inputs)).

(** sum(weight) over the matched rules. *)
Definition weight_sum (e : InferenceEngine Input) (inputs : Input) : Q :=
  Qsum (map weight (matched_rules e inputs)).

(** Two rules agree on what the static filter looks at: both hold a
    [FuzzySet] (the same one) or both hold a function (any two). *)
Definition same_stored_field (r1 r2 : FuzzyRule Input) : Prop :=
  match consequence r1, consequence r2 with
  | FixedSet A, FixedSet B => A = B
  | Computed _, Computed _ => True
  | _, _ => False
  end.

End RuleVocabulary.

(** The aggregate curve of an engine: the pointwise maximum of 0 and the
    membership functions of its [FuzzySet] consequences. *)
Definition aggregate_curve {Input : Type} (e : InferenceEngine Input) : Q -> Q :=
  aggregate_mu (getFuzzySetConsequences e).

(** Two fuzzy sets with the same membership function (names may differ). *)
Definition same_membership (A B : FuzzySet) : Prop :=
  forall x, membershipFunction A x = membershipFunction B x.

(** ** Example data *)


(** A set whose curve reaches 1, falls to 1/2 and comes back to 1. *)
Definition notch : FuzzySet :=
  mkFuzzySet "Notch" (fun x => if Qeq_bool x 1 then 1 # 2 else 1).

(** The same curve under another name. *)
Definition notch_renamed : FuzzySet :=
  mkFuzzySet "Dip" (fun x => if Qeq_bool x 1 then 1 # 2 else 1).

(** An engine whose only stored set is [notch]; its second rule computes
    a [FuzzySet] at evaluation time. *)
Definition notch_engine : InferenceEngine ticket :=
  mkInferenceEngine
    [ mkFuzzyRule (fun _ => true) (FixedSet notch) 1;
      mkFuzzyRule (fun _ => true) (Computed (fun _ => VFuzzySet urgencySet)) 1 ].

(** Other conditions, weights and functions around the same curve. *)
Definition notch_engine' : InferenceEngine ticket :=
  mkInferenceEngine
    [ mkFuzzyRule (fun _ => false) (Computed (fun _ => VString "Urgent")) 5;
      mkFuzzyRule (fun inputs => Qle_bool (urgency inputs) 2) (FixedSet notch_renamed) (7 # 2) ].

(** The curve mu(x) = x. *)
Definition ramp : FuzzySet := mkFuzzySet "Ramp" (fun x => x).

(** An engine with two stored sets, the second above the first at 1 and
    at 2. *)
Definition two_set_engine : InferenceEngine ticket :=
  mkInferenceEngine
    [ mkFuzzyRule (fun _ => true) (FixedSet notch) 1;
      mkFuzzyRule (fun _ => false) (FixedSet ramp) 1 ].

(** An engine with label rules only. *)
Definition label_engine : InferenceEngine ticket :=
  mkInferenceEngine
    [ mkFuzzyRule (fun _ => true) (Computed (fun _ => VString "Urgent")) 1;
      mkFuzzyRule (fun inputs => Qle_bool (urgency inputs) 2)
                  (Computed (fun _ => VString "Medium Priority")) 3;
      mkFuzzyRule (fun _ => true) (Computed (fun _ => VString "Escalate")) 0 ].

(** ** Vocabulary of the further properties *)

(** The four labels [infer] can answer. *)
Definition labels : list string :=
  ["Urgent"; "High Priority"; "Medium Priority"; "Low Priority"]%string.

(** The score of a label. *)
Definition label_score (l : string) : Q := priorityMapping (VString l).

(** The rules of non-zero weight. *)
Definition drop_weightless {Input : Type} (e : InferenceEngine Input)
  : InferenceEngine Input :=
  mkInferenceEngine (filter (fun r => negb (Qeq_bool (weight r) 0)) (rules e)).

(** Two rules act alike on [inputs]: both fail, or both match with the
    same result and weight. *)
Definition same_effect {Input : Type} (inputs : Input) (r r' : FuzzyRule Input) : Prop :=
  condition r inputs = condition r' inputs
  /\ (condition r inputs = true ->
      rule_result r inputs = rule_result r' inputs /\ weight r = weight r').

(** [label_engine] with its second rule replaced by one that never
    matches. *)
Definition label_engine' : InferenceEngine ticket :=
  mkInferenceEngine
    [ mkFuzzyRule (fun _ => true) (Computed (fun _ => VString "Urgent")) 1;
      mkFuzzyRule (fun _ => false) (FixedSet notch) 9;
      mkFuzzyRule (fun _ => true) (Computed (fun _ => VString "Escalate")) 0 ].

(** * The same code over binary64 numbers *)

Module Binary64.

#[local] Open Scope float_scope.
#[local] Set Warnings "-inexact-float".

(** ** JavaScript primitives used by the source *)

Module Math.
(** [Math.max(a, b)] on two numbers: NaN if either is NaN, otherwise the
    larger one, with +0 above -0. *)
Definition max (a b : float) : float :=
  if is_nan a || is_nan b then nan
  else if a <? b then b
  else match classify a, classify b with
       | NZero, PZero => b
       | _, _ => a
       end.
End Math.

(** [for (let x = x0; x <= max; x += step) body] over loop state [S]. *)
Fixpoint for_loop {S : Type} (fuel : nat) (x max step : float)
         (body : float -> S -> ctl S) (s : S) : option S :=
  match fuel with
  | O => None
  | Datatypes.S k =>
      if x <=? max then
        match body x s with
        | Next s' => for_loop k (x + step) max step body s'
        | Break s' => Some s'
        end
      else Some s
  end.

(** ** fuzzySet.js *)

Record FuzzySet : Type := mkFuzzySet {
  name : string;
  membershipFunction : float -> float
}.

Definition membershipDegree (this : FuzzySet) (x : float) : float :=
  membershipFunction this x.

Record centroid_acc : Type := mkCentroidAcc {
  numerator : float;
  denominator : float
}.

Definition centroid_result (a : centroid_acc) : float :=
  if denominator a =? 0 then 0 else numerator a / denominator a.

Definition centroid (fuel : nat) (this : FuzzySet) (min max step : float) : option float :=
  option_map centroid_result
    (for_loop fuel min max step
       (fun x a =>
          let mu := membershipFunction this x in
          Next (mkCentroidAcc (numerator a + x * mu) (denominator a + mu)))
       (mkCentroidAcc 0 0)).

(** ** fuzzyRule.js *)

Inductive value : Type :=
| VString (s : string)
| VFuzzySet (A : FuzzySet)
| VNumber (q : float)
| VOther.

Section Rules.

Context {Input : Type}.

Inductive consequence_t : Type :=
| FixedSet (A : FuzzySet)
| Computed (f : Input -> value).

Record FuzzyRule : Type := mkFuzzyRule {
  condition : Input -> bool;
  consequence : consequence_t;
  weight : float
}.

Record evaluation : Type := mkEvaluation {
  result : value;
  eweight : float
}.

Definition evaluate (this : FuzzyRule) (inputs : Input) : option evaluation :=
  if condition this inputs then
    let result :=
      match consequence this with
      | FixedSet A => VFuzzySet A
      | Computed f => f inputs
      end in
    Some (mkEvaluation result (weight this))
  else None.

(** ** inferenceEngine.js *)

Record InferenceEngine : Type := mkInferenceEngine {
  rules : list FuzzyRule
}.

Definition priorityMapping (priority : value) : float :=
  match priority with
  | VString s =>
      if String.eqb s "Urgent" then 3
      else if String.eqb s "High Priority" then 2
      else if String.eqb s "Medium Priority" then 1
      else 0
  | _ => 0
  end.

Definition reversePriorityMapping (score : float) : string :=
  if 2.5 <=? score then "Urgent"
  else if 1.5 <=? score then "High Priority"
  else if 0.5 <=? score then "Medium Priority"
  else "Low Priority".

Record aggregate_acc : Type := mkAggregateAcc {
  totalWeight : float;
  weightedSum : float
}.

Definition aggregate_step (a : aggregate_acc) (ev : evaluation) : aggregate_acc :=
  mkAggregateAcc (totalWeight a + eweight ev)
                 (weightedSum a + priorityMapping (result ev) * eweight ev).

Definition aggregateResults (results : list evaluation) : string :=
  match results with
  | [] => "Low Priority"
  | _ =>
      let a := fold_left aggregate_step results (mkAggregateAcc 0 0) in
      if 0 <? totalWeight a
      then reversePriorityMapping (weightedSum a / totalWeight a)
      else "Low Priority"
  end.

Definition infer_results (rs : list FuzzyRule) (inputs : Input) : list evaluation :=
  fold_left
    (fun results rule =>
       match evaluate rule inputs with
       | Some ev => results ++ [ev]
       | None => results
       end)
    rs [].

Definition infer (this : InferenceEngine) (inputs : Input) : string :=
  aggregateResults (infer_results (rules this) inputs).

Definition instanceof_FuzzySet (c : consequence_t) : bool :=
  match c with
  | FixedSet _ => true
  | Computed _ => false
  end.

Fixpoint as_FuzzySets (cs : list consequence_t) : list FuzzySet :=
  match cs with
  | [] => []
  | FixedSet A :: cs' => A :: as_FuzzySets cs'
  | Computed _ :: cs' => as_FuzzySets cs'
  end.

Definition getFuzzySetConsequences (this : InferenceEngine) : list FuzzySet :=
  as_FuzzySets (filter instanceof_FuzzySet (map consequence (rules this))).

Definition aggregate_mu (fuzzySets : list FuzzySet) (x : float) : float :=
  fold_left (fun mu fuzzySet => Math.max mu (membershipFunction fuzzySet x))
            fuzzySets 0.

Definition defuzzifyCentroid (fuel : nat) (this : InferenceEngine)
           (min max step : float) : option float :=
  let fuzzySets := getFuzzySetConsequences this in
  option_map centroid_result
    (for_loop fuel min max step
       (fun x a =>
          let mu := aggregate_mu fuzzySets x in
          Next (mkCentroidAcc (numerator a + x * mu) (denominator a + mu)))
       (mkCentroidAcc 0 0)).

(** [count] is a number like the others: [count++] is a binary64
    addition. *)
Record mom_acc : Type := mkMomAcc {
  maxMu : float;
  sumX : float;
  count : float
}.

Definition mom_step (mu x : float) (a : mom_acc) : mom_acc :=
  if maxMu a <? mu then mkMomAcc mu x 1
  else if mu =? maxMu a then mkMomAcc (maxMu a) (sumX a + x) (count a + 1)
  else a.

Definition mom_result (a : mom_acc) : float :=
  if count a =? 0 then 0 else sumX a / count a.

Definition defuzzifyMOM (fuel : nat) (this : InferenceEngine)
           (min max step : float) : option float :=
  let fuzzySets := getFuzzySetConsequences this in
  option_map mom_result
    (for_loop fuel min max step
       (fun x a => Next (mom_step (aggregate_mu fuzzySets x) x a))
       (mkMomAcc 0 0 0)).

Record bisector_acc : Type := mkBisectorAcc {
  leftArea : float;
  bisector : float
}.

Definition bisector_step (totalArea step mu x : float) (a : bisector_acc)
  : ctl bisector_acc :=
  let leftArea' := leftArea a + mu * step in
  if totalArea / 2 <=? leftArea'
  then Break (mkBisectorAcc leftArea' x)
  else Next (mkBisectorAcc leftArea' (bisector a)).

Definition defuzzifyBisector (fuel : nat) (this : InferenceEngine)
           (min max step : float) : option float :=
  let fuzzySets := getFuzzySetConsequences this in
  match for_loop fuel min max step
          (fun x totalArea => Next (totalArea + aggregate_mu fuzzySets x * step)) 0 with
  | None => None
  | Some totalArea =>
      option_map bisector
        (for_loop fuel min max step
           (fun x a => bisector_step totalArea step (aggregate_mu fuzzySets x) x a)
           (mkBisectorAcc 0 min))
  end.

End Rules.

Arguments consequence_t Input : clear implicits.
Arguments FuzzyRule Input : clear implicits.
Arguments InferenceEngine Input : clear implicits.

(** ** Specification vocabulary *)

(** The points visited by [for (let x = x0; x <= max; x += step)], read off
    the loop header alone: x0, x0 + step, (x0 + step) + step, ..., each
    sum rounded as the code rounds it. *)
Fixpoint sample_points (fuel : nat) (x max step : float) : option (list float) :=
  match fuel with
  | O => None
  | S k =>
      if x <=? max
      then option_map (cons x) (sample_points k (x + step) max step)
      else Some []
  end.

(** The k-th value of the loop variable: [x] after k additions of [step]. *)
Fixpoint nth_point (k : nat) (x step : float) : float :=
  match k with
  | O => x
  | S k' => nth_point k' (x + step) step
  end.

(** The loop from [min] visits exactly [xs], in this order, and exits. *)
Definition samples (min max step : float) (xs : list float) : Prop :=
  exists fuel, sample_points fuel min max step = Some xs.

(** A fuelled run returns [v]: from some fuel on, the run yields [v]. *)
Definition returns {A : Type} (run : nat -> option A) (v : A) : Prop :=
  exists fuel, forall fuel', (fuel <= fuel')%nat -> run fuel' = Some v.

(** Running a loop body over a given list of points, honouring [break]. *)
Fixpoint run_body {S : Type} (body : float -> S -> ctl S) (xs : list float) (s : S) : S :=
  match xs with
  | [] => s
  | x :: xs' =>
      match body x s with
      | Next s' => run_body body xs' s'
      | Break s' => s'
      end
  end.

(** The sum of a list as the code accumulates it: from 0, left to right,
    every addition rounded. *)
Definition fsum (l : list float) : float := fold_left add l 0.

(** The sum x1 + x2 + ... + xn accumulated from its first term. *)
Definition fsum_from_first (l : list float) : float :=
  match l with
  | [] => 0
  | x :: l' => fold_left add l' x
  end.

(** The number of elements of a list as the code counts them: from 0,
    adding 1 for each. *)
Definition count_of (l : list float) : float := fold_left (fun c _ => c + 1) l 0.

(** A number above 0 (finite or infinite), read on its specification. *)
Definition strictly_positive (f : spec_float) : Prop :=
  match f with
  | S754_finite false _ _ | S754_infinity false => True
  | _ => False
  end.

(** The total of the rectangles mu * step over [xs], accumulated from 0. *)
Definition area (mu : float -> float) (step : float) (xs : list float) : float :=
  fsum (map (fun x => mu x * step) xs).

(** The largest value of [mu] seen over [xs], starting from 0: a value
    replaces the running one when it is strictly greater. *)
Definition peak (mu : float -> float) (xs : list float) : float :=
  fold_left (fun m x => if m <? mu x then mu x else m) xs 0.

(** The points of [xs] at which [mu] equals [m] ([===]), in order. *)
Definition attaining (mu : float -> float) (m : float) (xs : list float) : list float :=
  filter (fun x => mu x =? m) xs.

(** Whether [mu] is above 0 somewhere on [xs]. *)
Definition positive_somewhere (mu : float -> float) (xs : list float) : bool :=
  existsb (fun x => 0 <? mu x) xs.

(** The mean of the points of [xs] at which [mu] attains its peak: their
    sum in sampling order over their count, 0 when there is none.  The sum
    is accumulated from the first point when the peak is above 0 and from
    0 when the peak is the initial 0; the two differ at most in the sign
    of a zero. *)
Definition mean_of_maxima (mu : float -> float) (xs : list float) : float :=
  let pts := attaining mu (peak mu xs) xs in
  let total := if positive_somewhere mu xs then fsum_from_first pts else fsum pts in
  if count_of pts =? 0 then 0 else total / count_of pts.

(** The mean of one run of points: x1 + ... + xn over its count. *)
Definition mean_of_run (run : list float) : float :=
  if count_of run =? 0 then 0 else fsum_from_first run / count_of run.

(** The maximal contiguous runs of points of [xs] satisfying [p]; [cur]
    holds the run being read, latest point first. *)
Fixpoint runs_from (p : float -> bool) (xs cur : list float) : list (list float) :=
  match xs with
  | [] => match cur with [] => [] | _ => [rev cur] end
  | x :: xs' =>
      if p x then runs_from p xs' (x :: cur)
      else match cur with
           | [] => runs_from p xs' []
           | _ => rev cur :: runs_from p xs' []
           end
  end.

(** The maximal contiguous runs of [xs] on which [mu] equals [m]. *)
Definition equal_runs (mu : float -> float) (m : float) (xs : list float)
  : list (list float) :=
  runs_from (fun x => mu x =? m) xs [].

Section RuleVocabulary.

Context {Input : Type}.

(** What a matching rule contributes as its result. *)
Definition rule_result (r : FuzzyRule Input) (inputs : Input) : value :=
  match consequence r with
  | FixedSet A => VFuzzySet A
  | Computed f => f inputs
  end.

(** The rules whose condition holds, in rule order. *)
Definition matched_rules (e : InferenceEngine Input) (inputs : Input)
  : list (FuzzyRule Input) :=
  filter (fun r => condition r inputs) (rules e).

(** sum(score * weight) over the matched rules, in rule order. *)
Definition score_sum (e : InferenceEngine Input) (inputs : Input) : float :=
  fsum (map (fun r => priorityMapping (rule_result r inputs) * weight r)
            (matched_rules e inputs)).

(** sum(weight) over the matched rules, in rule order. *)
Definition weight_sum (e : InferenceEngine Input) (inputs : Input) : float :=
  fsum (map weight (matched_rules e inputs)).

(** The aggregate curve of an engine. *)
Definition aggregate_curve (e : InferenceEngine Input) : float -> float :=
  aggregate_mu (getFuzzySetConsequences e).

(** The single-run reading of [defuzzifyMOM]: whenever the aggregate
    curve attains its peak on two or more separate runs of samples (it
    dips below the peak and recovers), the returned mean is that of one
    of these runs alone. *)
Definition mom_single_run_policy : Prop :=
  forall (e : InferenceEngine Input) (min max step : float) (xs : list float),
    samples min max step xs ->
    (2 <= length (equal_runs (aggregate_curve e) (peak (aggregate_curve e) xs) xs))%nat ->
    exists run,
      In run (equal_runs (aggregate_curve e) (peak (aggregate_curve e) xs) xs)
      /\ returns (fun fuel => defuzzifyMOM fuel e min max step) (mean_of_run run).

End RuleVocabulary.

(** ** Example data *)

Record ticket : Type := mkTicket {
  urgency : float;
  complexity : float
}.

(** A set whose curve reaches 1, falls to 1/2 and comes back to 1. *)
Definition notch : FuzzySet :=
  mkFuzzySet "Notch" (fun x => if x =? 1 then 0.5 else 1).

(** A set that is 1 everywhere. *)
Definition flat : FuzzySet := mkFuzzySet "Flat" (fun _ => 1).

(** A set without a value anywhere. *)
Definition undefined_curve : FuzzySet := mkFuzzySet "NaN" (fun _ => nan).

Definition notch_engine : InferenceEngine ticket :=
  mkInferenceEngine
    [ mkFuzzyRule (fun _ => true) (FixedSet notch) 1;
      mkFuzzyRule (fun _ => true) (Computed (fun _ => VFuzzySet flat)) 1 ].

Definition flat_engine : InferenceEngine ticket :=
  mkInferenceEngine [ mkFuzzyRule (fun _ => true) (FixedSet flat) 1 ].

Definition undefined_engine : InferenceEngine ticket :=
  mkInferenceEngine [ mkFuzzyRule (fun _ => true) (FixedSet undefined_curve) 1 ].

(** An engine with label rules only (no stored set). *)
Definition label_engine : InferenceEngine ticket :=
  mkInferenceEngine
    [ mkFuzzyRule (fun _ => true) (Computed (fun _ => VString "Urgent")) 1;
      mkFuzzyRule (fun inputs => urgency inputs <=? 2)
                  (Computed (fun _ => VString "Medium Priority")) 3;
      mkFuzzyRule (fun _ => true) (Computed (fun _ => VString "Escalate")) 0 ].

(** Weights in tenths, which binary64 does not hold exactly. *)
Definition tenths_engine : InferenceEngine ticket :=
  mkInferenceEngine
    [ mkFuzzyRule (fun _ => true) (Computed (fun _ => VString "Urgent")) 0.1;
      mkFuzzyRule (fun _ => true) (Computed (fun _ => VString "Medium Priority")) 0.2;
      mkFuzzyRule (fun _ => true) (Computed (fun _ => VString "Medium Priority")) 0.1 ].

(** Only zero-weight rules. *)
Definition weightless_engine : InferenceEngine ticket :=
  mkInferenceEngine
    [ mkFuzzyRule (fun _ => true) (Computed (fun _ => VString "Urgent")) 0 ].

(** A single rule that says Urgent, with a negative weight. *)
Definition negative_engine : InferenceEngine ticket :=
  mkInferenceEngine
    [ mkFuzzyRule (fun _ => true) (Computed (fun _ => VString "Urgent")) (-1) ].

(** Two rules that say Urgent, each with the weight 2^1023. *)
Definition overflow_engine : InferenceEngine ticket :=
  mkInferenceEngine
    [ mkFuzzyRule (fun _ => true) (Computed (fun _ => VString "Urgent")) 0x1p1023;
      mkFuzzyRule (fun _ => true) (Computed (fun _ => VString "Urgent")) 0x1p1023 ].

(** The points sampled on [0, 1] with step 0.1. *)
Definition tenth_points : list float :=
  Eval vm_compute in
    match sample_points 20 0 1 0.1 with
    | Some xs => xs
    | None => []
    end.

(** The points 0, 1, 2. *)
Definition unit_points : list float := [0; 1; 2].

End Binary64.

(** * Properties over exact rationals *)

(** ** Numbers *)

Lemma Math_max_Qmax (a b : Q) : Math.max a b == Qmax a b.
Proof.
  unfold Math.max. destruct (Qle_bool a b) eqn:E.
  - apply Qle_bool_iff in E. symmetry. now apply Q.max_r.
  - symmetry. apply Q.max_l. destruct (Qlt_le_dec b a) as [H|H]; [lra|].
    apply Qle_bool_iff in H. congruence.
Qed.

Lemma Math_min_Qmin (a b : Q) : Math.min a b == Qmin a b.
Proof.
  unfold Math.min. destruct (Qle_bool a b) eqn:E.
  - apply Qle_bool_iff in E. symmetry. now apply Q.min_l.
  - symmetry. apply Q.min_r. destruct (Qlt_le_dec b a) as [H|H]; [lra|].
    apply Qle_bool_iff in H. congruence.
Qed.

Lemma Math_max_cases (a b : Q) :
  (a <= b /\ Math.max a b = b) \/ (b < a /\ Math.max a b = a).
Proof.
  unfold Math.max. destruct (Qle_bool a b) eqn:E.
  - left. split; [now apply Qle_bool_iff | reflexivity].
  - right. split; [|reflexivity]. destruct (Qlt_le_dec b a) as [H|H]; [exact H|].
    apply Qle_bool_iff in H. congruence.
Qed.

Lemma Qgt_bool_true (a b : Q) : Qgt_bool a b = true <-> b < a.
Proof.
  unfold Qgt_bool. rewrite negb_true_iff. split; intros H.
  - destruct (Qlt_le_dec b a) as [L|L]; [exact L|].
    apply Qle_bool_iff in L. congruence.
  - destruct (Qle_bool a b) eqn:E; [|reflexivity].
    apply Qle_bool_iff in E. lra.
Qed.

Lemma Qgt_bool_false (a b : Q) : Qgt_bool a b = false <-> a <= b.
Proof.
  unfold Qgt_bool. rewrite negb_false_iff. apply Qle_bool_iff.
Qed.

Lemma Qeq_bool_false (a b : Q) : Qeq_bool a b = false <-> ~ a == b.
Proof.
  split; intros H.
  - intros E. apply Qeq_bool_iff in E. congruence.
  - destruct (Qeq_bool a b) eqn:E; [|reflexivity]. apply Qeq_bool_iff in E. contradiction.
Qed.

Lemma Qle_bool_Qeq (a a' b b' : Q) :
  a == a' -> b == b' -> Qle_bool a b = Qle_bool a' b'.
Proof.
  intros Ha Hb. destruct (Qle_bool a' b') eqn:E.
  - apply Qle_bool_iff. apply Qle_bool_iff in E. lra.
  - destruct (Qle_bool a b) eqn:F; [|reflexivity].
    apply Qle_bool_iff in F. assert (G : a' <= b') by lra.
    apply Qle_bool_iff in G. congruence.
Qed.

Lemma Qeq_bool_Qeq (a a' b b' : Q) :
  a == a' -> b == b' -> Qeq_bool a b = Qeq_bool a' b'.
Proof.
  intros Ha Hb. destruct (Qeq_bool a' b') eqn:E.
  - apply Qeq_bool_iff. apply Qeq_bool_iff in E. lra.
  - destruct (Qeq_bool a b) eqn:F; [|reflexivity].
    apply Qeq_bool_iff in F. assert (G : a' == b') by lra.
    apply Qeq_bool_iff in G. congruence.
Qed.

(** ** fuzzySet.js: the combinators *)

(** C6: for all fuzzy sets A, B and every x, the membership degree of
    A.union(B) at x is the maximum of the two degrees, that of
    A.intersection(B) is their minimum, and that of A.complement() is one
    minus the degree of A. *)
Theorem union_intersection_complement_pointwise (A B : FuzzySet) (x : Q) :
  membershipDegree (union A B) x
    == Qmax (membershipDegree A x) (membershipDegree B x)
  /\ membershipDegree (intersection A B) x
    == Qmin (membershipDegree A x) (membershipDegree B x)
  /\ membershipDegree (complement A) x = 1 - membershipDegree A x.
Proof.
  repeat split.
  - apply Math_max_Qmax.
  - apply Math_min_Qmin.
Qed.



(** ** inferenceEngine.js: the stored fuzzy-set consequences *)

Section Consequences.

Context {Input : Type}.
Implicit Types (e : InferenceEngine Input) (r : FuzzyRule Input).

Lemma getFuzzySetConsequences_cons r (rs : list (FuzzyRule Input)) :
  getFuzzySetConsequences (mkInferenceEngine (r :: rs)) =
  match consequence r with
  | FixedSet A => A :: getFuzzySetConsequences (mkInferenceEngine rs)
  | Computed _ => getFuzzySetConsequences (mkInferenceEngine rs)
  end.
Proof.
  unfold getFuzzySetConsequences; simpl. now destruct (consequence r).
Qed.

Lemma as_FuzzySets_filter (cs : list (consequence_t Input)) :
  map FixedSet (as_FuzzySets (filter instanceof_FuzzySet cs))
  = filter instanceof_FuzzySet cs.
Proof.
  induction cs as [|[A|f] cs IH]; simpl; [reflexivity | now f_equal | exact IH].
Qed.

(** C8: getFuzzySetConsequences returns exactly the consequence fields
    that are FuzzySet instances, in rule order: read rule by rule, a
    stored FuzzySet is kept and a stored function is dropped, whatever
    that function returns (also a FuzzySet); the outcome depends on the
    stored fields only, so no condition or consequence function is
    consulted. *)
Theorem getFuzzySetConsequences_static_filter e :
  map FixedSet (getFuzzySetConsequences e)
    = filter instanceof_FuzzySet (map consequence (rules e))
  /\ (forall A, In A (getFuzzySetConsequences e) <->
                exists r, In r (rules e) /\ consequence r = FixedSet A)
  /\ (forall r rs,
        getFuzzySetConsequences (mkInferenceEngine (r :: rs)) =
        match consequence r with
        | FixedSet A => A :: getFuzzySetConsequences (mkInferenceEngine rs)
        | Computed _ => getFuzzySetConsequences (mkInferenceEngine rs)
        end)
  /\ (forall (c : Input -> bool) (A : FuzzySet) (w : Q) rs,
        getFuzzySetConsequences
          (mkInferenceEngine (mkFuzzyRule c (Computed (fun _ => VFuzzySet A)) w :: rs))
        = getFuzzySetConsequences (mkInferenceEngine rs))
  /\ (forall e', Forall2 same_stored_field (rules e) (rules e') ->
                 getFuzzySetConsequences e = getFuzzySetConsequences e').
Proof.
  split; [apply as_FuzzySets_filter|]. split; [|split; [|split]].
  - intros A. destruct e as [rs]; simpl. induction rs as [|r rs IH].
    + simpl. split; [intros [] | intros (r & [] & _)].
    + rewrite getFuzzySetConsequences_cons. simpl in *.
      destruct (consequence r) as [B|f] eqn:E; simpl; rewrite IH; split.
      * intros [<-|(r' & Hin & Hc)]; [exists r; auto | exists r'; auto].
      * intros (r' & [<-|Hin] & Hc); [left; congruence | right; exists r'; auto].
      * intros (r' & Hin & Hc); exists r'; auto.
      * intros (r' & [<-|Hin] & Hc); [congruence | exists r'; auto].
  - apply getFuzzySetConsequences_cons.
  - intros c A w rs. apply getFuzzySetConsequences_cons.
  - intros [rs'] H. destruct e as [rs]; simpl in H.
    induction H as [|r r' rs rs' Hr _ IH]; [reflexivity|].
    rewrite !getFuzzySetConsequences_cons. unfold same_stored_field in Hr.
    destruct (consequence r), (consequence r'); try contradiction; congruence.
Qed.

End Consequences.

Lemma getFuzzySetConsequences_static_filter_witness :
  getFuzzySetConsequences notch_engine = [notch]
  /\ getFuzzySetConsequences
       (mkInferenceEngine
          [ mkFuzzyRule (fun _ : ticket => false) (FixedSet notch) 0;
            mkFuzzyRule (fun _ => false) (Computed (fun _ => VOther)) 0 ])
     = getFuzzySetConsequences notch_engine.
Proof.
  split; [reflexivity|].
  symmetry.
  apply (getFuzzySetConsequences_static_filter notch_engine).
  repeat constructor.
Defined.

(** ** inferenceEngine.js: what the defuzzifiers read *)

Lemma for_loop_ext {S : Type} (body body' : Q -> S -> ctl S) :
  (forall x s, body x s = body' x s) ->
  forall fuel x max step s,
    for_loop fuel x max step body s = for_loop fuel x max step body' s.
Proof.
  intros Hb fuel; induction fuel as [|k IH]; intros x max step s; simpl; [reflexivity|].
  destruct (Qle_bool x max); [|reflexivity].
  rewrite <- Hb. destruct (body x s); [apply IH | reflexivity].
Qed.

Lemma aggregate_mu_ext (fs gs : list FuzzySet) :
  Forall2 same_membership fs gs ->
  forall x, aggregate_mu fs x = aggregate_mu gs x.
Proof.
  intros H x. unfold aggregate_mu. generalize 0.
  induction H as [|A B fs gs HAB _ IH]; intros m; simpl; [reflexivity|].
  rewrite (HAB x). apply IH.
Qed.

Lemma Forall2_same_membership_refl (fs : list FuzzySet) :
  Forall2 same_membership fs fs.
Proof. induction fs; constructor; [intros x; reflexivity | assumption]. Qed.

(** C10: the three defuzzifiers read an engine only through the membership
    functions of its stored FuzzySet consequences: two engines (over any
    input types) whose sequences of stored sets have pointwise equal
    membership functions, in particular the same sequence of sets, give
    the same outcome on every (min, max, step), whatever their conditions,
    weights and function-valued consequences. *)
Theorem defuzzifiers_read_only_stored_sets
        {I1 I2 : Type} (e1 : InferenceEngine I1) (e2 : InferenceEngine I2) :
  Forall2 same_membership (getFuzzySetConsequences e1) (getFuzzySetConsequences e2) ->
  forall (fuel : nat) (min max step : Q),
    defuzzifyCentroid fuel e1 min max step = defuzzifyCentroid fuel e2 min max step
    /\ defuzzifyMOM fuel e1 min max step = defuzzifyMOM fuel e2 min max step
    /\ defuzzifyBisector fuel e1 min max step = defuzzifyBisector fuel e2 min max step.
Proof.
  intros H fuel min max step.
  pose proof (aggregate_mu_ext _ _ H) as Hmu.
  unfold defuzzifyCentroid, defuzzifyMOM, defuzzifyBisector.
  repeat split.
  - f_equal. apply for_loop_ext. intros x a. now rewrite Hmu.
  - f_equal. apply for_loop_ext. intros x a. now rewrite Hmu.
  - rewrite (for_loop_ext
               (fun x totalArea =>
                  Next (totalArea + aggregate_mu (getFuzzySetConsequences e1) x * step))
               (fun x totalArea =>
                  Next (totalArea + aggregate_mu (getFuzzySetConsequences e2) x * step)))
      by (intros x a; now rewrite Hmu).
    destruct (for_loop fuel min max step _ 0) as [totalArea|]; [|reflexivity].
    f_equal. apply for_loop_ext. intros x a. now rewrite Hmu.
Qed.

Lemma defuzzifiers_read_only_stored_sets_witness :
  defuzzifyCentroid 9 notch_engine 0 2 1 = defuzzifyCentroid 9 notch_engine' 0 2 1
  /\ defuzzifyMOM 9 notch_engine 0 2 1 = defuzzifyMOM 9 notch_engine' 0 2 1
  /\ defuzzifyBisector 9 notch_engine 0 2 1 = defuzzifyBisector 9 notch_engine' 0 2 1.
Proof.
  apply (defuzzifiers_read_only_stored_sets notch_engine notch_engine').
  constructor; [intros x; reflexivity | constructor].
Defined.

(** ** inferenceEngine.js: [infer] *)

Section Infer.

Context {Input : Type}.
Implicit Types (e : InferenceEngine Input) (r : FuzzyRule Input).

Lemma infer_results_acc (rs : list (FuzzyRule Input)) (inputs : Input)
      (acc : list evaluation) :
  fold_left
    (fun results rule =>
       match evaluate rule inputs with
       | Some ev => results ++ [ev]
       | None => results
       end) rs acc
  = acc ++ map (fun r => mkEvaluation (rule_result r inputs) (weight r))
               (filter (fun r => condition r inputs) rs).
Proof.
  revert acc; induction rs as [|r rs IH]; intros acc; simpl.
  - now rewrite app_nil_r.
  - rewrite IH. unfold evaluate. destruct (condition r inputs); [|reflexivity].
    simpl. now rewrite <- app_assoc.
Qed.

(** The results collected by [infer]: one per matching rule, in order. *)
Lemma infer_results_matched e (inputs : Input) :
  infer_results (rules e) inputs
  = map (fun r => mkEvaluation (rule_result r inputs) (weight r))
        (matched_rules e inputs).
Proof. unfold infer_results. now rewrite infer_results_acc. Qed.

Lemma aggregate_fold (evs : list evaluation) (a : aggregate_acc) :
  totalWeight (fold_left aggregate_step evs a)
    == totalWeight a + Qsum (map eweight evs)
  /\ weightedSum (fold_left aggregate_step evs a)
    == weightedSum a
       + Qsum (map (fun ev => priorityMapping (result ev) * eweight ev) evs).
Proof.
  revert a; induction evs as [|ev evs IH]; intros a; simpl.
  - split; lra.
  - destruct (IH (aggregate_step a ev)) as [-> ->]. simpl. split; lra.
Qed.

Lemma reversePriorityMapping_Qeq (s s' : Q) :
  s == s' -> reversePriorityMapping s = reversePriorityMapping s'.
Proof.
  intros E. unfold reversePriorityMapping.
  now rewrite !(Qle_bool_Qeq _ _ s s' (Qeq_refl _) E).
Qed.

(** [infer] in terms of the matched rules and the two sums. *)
Lemma infer_sums e (inputs : Input) :
  infer e inputs =
  match matched_rules e inputs with
  | [] => "Low Priority"%string
  | _ => if Qgt_bool (weight_sum e inputs) 0
         then reversePriorityMapping (score_sum e inputs / weight_sum e inputs)
         else "Low Priority"%string
  end.
Proof.
  unfold infer, weight_sum, score_sum. rewrite infer_results_matched.
  destruct (matched_rules e inputs) as [|r ms]; [reflexivity|].
  set (evs := map _ (r :: ms)).
  set (a := fold_left aggregate_step evs (mkAggregateAcc 0 0)).
  replace (aggregateResults evs)
    with (if Qgt_bool (totalWeight a) 0
          then reversePriorityMapping (weightedSum a / totalWeight a)
          else "Low Priority"%string) by reflexivity.
  destruct (aggregate_fold evs (mkAggregateAcc 0 0)) as [Ht Hs]. fold a in Ht, Hs.
  assert (Et : map eweight evs = map weight (r :: ms)).
  { unfold evs. now rewrite map_map. }
  assert (Es : map (fun ev => priorityMapping (result ev) * eweight ev) evs
               = map (fun r => priorityMapping (rule_result r inputs) * weight r)
                     (r :: ms)).
  { unfold evs. now rewrite map_map. }
  rewrite Et in Ht. rewrite Es in Hs.
  change (totalWeight (mkAggregateAcc 0 0)) with 0 in Ht.
  change (weightedSum (mkAggregateAcc 0 0)) with 0 in Hs.
  rewrite Qplus_0_l in Ht, Hs.
  unfold Qgt_bool. rewrite (Qle_bool_Qeq _ _ 0 0 Ht (Qeq_refl 0)).
  destruct (Qle_bool _ 0); cbn [negb]; [reflexivity|].
  apply reversePriorityMapping_Qeq. now rewrite Ht, Hs.
Qed.

End Infer.

(** C2: on the reference example (the FuzzySet('Urgent') rule followed by
    the three label rules, all of weight 1) the ticket
    {urgency: 8, complexity: 6} matches the first three rules, which score
    0, 2 and 1; the weighted mean is 1 and [infer] answers
    "Medium Priority". *)
Theorem example_ticket_is_medium_priority :
  map (fun ev => (priorityMapping (result ev), eweight ev))
      (infer_results (rules example_engine) example_ticket)
    = [(0, 1); (2, 1); (1, 1)]
  /\ score_sum example_engine example_ticket / weight_sum example_engine example_ticket == 1
  /\ infer example_engine example_ticket = "Medium Priority"%string.
Proof. repeat split. Qed.

(** C2, as stated: [infer] does not answer "Urgent" on that ticket. *)
Lemma example_ticket_is_not_urgent :
  infer example_engine example_ticket <> "Urgent"%string.
Proof. discriminate. Qed.

(** ** The aggregate curve is never negative *)

Lemma aggregate_mu_from (fs : list FuzzySet) (x m : Q) :
  m <= fold_left (fun mu fuzzySet => Math.max mu (membershipFunction fuzzySet x)) fs m.
Proof.
  revert m; induction fs as [|A fs IH]; intros m; simpl; [lra|].
  eapply Qle_trans; [|apply IH].
  destruct (Math_max_cases m (membershipFunction A x)) as [[L ->]|[L ->]]; lra.
Qed.

Lemma aggregate_mu_nonneg (fs : list FuzzySet) (x : Q) : 0 <= aggregate_mu fs x.
Proof. apply aggregate_mu_from. Qed.

(** * Further properties of the code *)

(** ** fuzzySet.js: laws of the combinators *)

Lemma Math_min_cases (a b : Q) :
  (a <= b /\ Math.min a b = a) \/ (b < a /\ Math.min a b = b).
Proof.
  unfold Math.min. destruct (Qle_bool a b) eqn:E.
  - left. split; [now apply Qle_bool_iff | reflexivity].
  - right. split; [|reflexivity]. destruct (Qlt_le_dec b a) as [H|H]; [exact H|].
    apply Qle_bool_iff in H. congruence.
Qed.

(** Case analysis on every [Math.max] and [Math.min] in sight. *)
Ltac math_cases :=
  repeat match goal with
         | |- context [Math.max ?a ?b] =>
             let L := fresh "L" in
             let E := fresh "E" in
             destruct (Math_max_cases a b) as [[L E]|[L E]]; rewrite E in *; clear E
         | |- context [Math.min ?a ?b] =>
             let L := fresh "L" in
             let E := fresh "E" in
             destruct (Math_min_cases a b) as [[L E]|[L E]]; rewrite E in *; clear E
         | _ : context [Math.max ?a ?b] |- _ =>
             let L := fresh "L" in
             let E := fresh "E" in
             destruct (Math_max_cases a b) as [[L E]|[L E]]; rewrite E in *; clear E
         | _ : context [Math.min ?a ?b] |- _ =>
             let L := fresh "L" in
             let E := fresh "E" in
             destruct (Math_min_cases a b) as [[L E]|[L E]]; rewrite E in *; clear E
         end.

(** De Morgan: complementing a union gives the intersection of the
    complements, and complementing an intersection gives the union of the
    complements, at every point. *)
Theorem complement_de_morgan (A B : FuzzySet) (x : Q) :
  membershipDegree (complement (union A B)) x
    == membershipDegree (intersection (complement A) (complement B)) x
  /\ membershipDegree (complement (intersection A B)) x
    == membershipDegree (union (complement A) (complement B)) x.
Proof.
  unfold membershipDegree; simpl. split; math_cases; lra.
Qed.


(** Union and intersection distribute over each other at every point. *)
Theorem union_intersection_distribute (A B C : FuzzySet) (x : Q) :
  membershipDegree (intersection A (union B C)) x
    == membershipDegree (union (intersection A B) (intersection A C)) x
  /\ membershipDegree (union A (intersection B C)) x
    == membershipDegree (intersection (union A B) (union A C)) x.
Proof.
  unfold membershipDegree; simpl. split; math_cases; lra.
Qed.


(** The combinators keep degrees inside [0,1]: where the operands have a
    degree in [0,1], so have their union, intersection, complement and
    normal form. *)
Theorem combinators_preserve_unit_interval (A B : FuzzySet) (x : Q) :
  0 <= membershipDegree A x <= 1 ->
  0 <= membershipDegree B x <= 1 ->
  0 <= membershipDegree (union A B) x <= 1
  /\ 0 <= membershipDegree (intersection A B) x <= 1
  /\ 0 <= membershipDegree (complement A) x <= 1
  /\ 0 <= membershipDegree (normalize A) x <= 1.
Proof.
  unfold membershipDegree; simpl. intros HA HB.
  split; [math_cases; lra|]. split; [math_cases; lra|]. split; [lra|].
  destruct (Math_max_cases 1 (membershipFunction A x)) as [[L ->]|[L ->]].
  - assert (E : membershipFunction A x == 1) by lra. rewrite E.
    split; discriminate.
  - setoid_replace (membershipFunction A x / 1) with (membershipFunction A x)
      by (field). lra.
Qed.

Lemma combinators_preserve_unit_interval_witness :
  0 <= membershipDegree (union urgencySet complexitySet) 4 <= 1
  /\ 0 <= membershipDegree (intersection urgencySet complexitySet) 4 <= 1
  /\ 0 <= membershipDegree (complement urgencySet) 4 <= 1
  /\ 0 <= membershipDegree (normalize urgencySet) 4 <= 1.
Proof.
  apply (combinators_preserve_unit_interval urgencySet complexitySet 4);
    split; discriminate.
Defined.



(** ** inferenceEngine.js: the aggregate curve *)




Lemma union_fold_membership (rest : list FuzzySet) (A : FuzzySet) (x : Q) :
  membershipFunction (fold_left union rest A) x
  = fold_left (fun mu fuzzySet => Math.max mu (membershipFunction fuzzySet x))
              rest (membershipFunction A x).
Proof.
  revert A; induction rest as [|B rest IH]; intros A; simpl; [reflexivity|].
  now rewrite IH.
Qed.

(** Aggregation is union: when the first stored set has no negative
    degree, [defuzzifyCentroid] on the engine is [centroid] on the union of
    the stored sets, for every domain and step (and every fuel). *)
Theorem defuzzifyCentroid_is_centroid_of_union
        {Input : Type} (e : InferenceEngine Input) (A : FuzzySet) (rest : list FuzzySet) :
  getFuzzySetConsequences e = A :: rest ->
  (forall x, 0 <= membershipDegree A x) ->
  forall (fuel : nat) (min max step : Q),
    defuzzifyCentroid fuel e min max step
    = centroid fuel (fold_left union rest A) min max step.
Proof.
  intros Hget Hpos fuel min max step.
  unfold defuzzifyCentroid, centroid. rewrite Hget. f_equal.
  apply for_loop_ext. intros x a.
  rewrite union_fold_membership. unfold aggregate_mu. simpl.
  destruct (Math_max_cases 0 (membershipFunction A x)) as [[L ->]|[L _]];
    [reflexivity|].
  specialize (Hpos x). unfold membershipDegree in Hpos. lra.
Qed.

Lemma defuzzifyCentroid_is_centroid_of_union_witness :
  defuzzifyCentroid 9 two_set_engine 0 2 1 = centroid 9 (union notch ramp) 0 2 1
  /\ defuzzifyCentroid 9 two_set_engine 0 2 1 <> centroid 9 notch 0 2 1.
Proof.
  split.
  - apply (defuzzifyCentroid_is_centroid_of_union two_set_engine notch [ramp]).
    + reflexivity.
    + intros x. unfold membershipDegree, notch; simpl.
      destruct (Qeq_bool x 1); discriminate.
  - discriminate.
Defined.

(** Joining two rule lists joins their stored sets, and an engine never
    stores more sets than it has rules. *)
Theorem getFuzzySetConsequences_app
        {Input : Type} (rs1 rs2 : list (FuzzyRule Input)) :
  getFuzzySetConsequences (mkInferenceEngine (rs1 ++ rs2))
    = getFuzzySetConsequences (mkInferenceEngine rs1)
      ++ getFuzzySetConsequences (mkInferenceEngine rs2)
  /\ (length (getFuzzySetConsequences (mkInferenceEngine rs1)) <= length rs1)%nat.
Proof.
  split.
  - induction rs1 as [|r rs1 IH]; [reflexivity|].
    change ((r :: rs1) ++ rs2) with (r :: (rs1 ++ rs2)).
    rewrite !getFuzzySetConsequences_cons, IH. now destruct (consequence r).
  - induction rs1 as [|r rs1 IH]; [simpl; lia|].
    rewrite getFuzzySetConsequences_cons. destruct (consequence r); simpl; lia.
Qed.

(** ** inferenceEngine.js: laws of [infer] *)

Section InferLaws.

Context {Input : Type}.
Implicit Types (e : InferenceEngine Input) (r : FuzzyRule Input).

(** [infer] through the two sums alone: with no matching rule the total
    weight is 0. *)
Lemma infer_by_sums e (inputs : Input) :
  infer e inputs =
  if Qgt_bool (weight_sum e inputs) 0
  then reversePriorityMapping (score_sum e inputs / weight_sum e inputs)
  else "Low Priority"%string.
Proof.
  rewrite infer_sums. unfold weight_sum.
  destruct (matched_rules e inputs); reflexivity.
Qed.

Lemma infer_sums_Qeq e e' (inputs inputs' : Input) :
  weight_sum e inputs == weight_sum e' inputs' ->
  score_sum e inputs == score_sum e' inputs' ->
  infer e inputs = infer e' inputs'.
Proof.
  intros Hw Hs. rewrite !infer_by_sums. unfold Qgt_bool.
  rewrite (Qle_bool_Qeq _ _ 0 0 Hw (Qeq_refl 0)).
  destruct (Qle_bool (weight_sum e' inputs') 0); cbn [negb]; [reflexivity|].
  apply reversePriorityMapping_Qeq. now rewrite Hw, Hs.
Qed.

Lemma reversePriorityMapping_labels (score : Q) :
  In (reversePriorityMapping score) labels.
Proof.
  unfold reversePriorityMapping, labels.
  destruct (Qle_bool 2.5 score); [simpl; tauto|].
  destruct (Qle_bool 1.5 score); [simpl; tauto|].
  destruct (Qle_bool 0.5 score); simpl; tauto.
Qed.

(** Whatever the rules return, [infer] answers one of the four labels. *)
Theorem infer_answers_one_of_four_labels e (inputs : Input) :
  In (infer e inputs) labels.
Proof.
  rewrite infer_by_sums. destruct (Qgt_bool (weight_sum e inputs) 0).
  - apply reversePriorityMapping_labels.
  - unfold labels. simpl. tauto.
Qed.

Lemma Qsum_map_ext {A : Type} (f g : A -> Q) (l : list A) :
  (forall a, In a l -> f a == g a) -> Qsum (map f l) == Qsum (map g l).
Proof.
  induction l as [|a l IH]; intros H; simpl; [reflexivity|].
  rewrite (H a) by now left. rewrite IH; [reflexivity|].
  intros b Hb. apply H. now right.
Qed.

(** Rules of weight 0 may be removed without changing the answer. *)
Theorem infer_ignores_weightless_rules e (inputs : Input) :
  infer (drop_weightless e) inputs = infer e inputs.
Proof.
  assert (H : forall (f : FuzzyRule Input -> Q) (rs : list (FuzzyRule Input)),
             Qsum (map (fun r => f r * weight r)
                       (filter (fun r => condition r inputs)
                               (filter (fun r => negb (Qeq_bool (weight r) 0)) rs)))
             == Qsum (map (fun r => f r * weight r)
                          (filter (fun r => condition r inputs) rs))).
  { intros f rs. induction rs as [|r rs IH]; simpl; [reflexivity|].
    destruct (Qeq_bool (weight r) 0) eqn:Z; simpl.
    - apply Qeq_bool_iff in Z. destruct (condition r inputs); simpl; rewrite IH;
        [rewrite Z; lra | reflexivity].
    - destruct (condition r inputs); simpl; now rewrite IH. }
  apply infer_sums_Qeq; unfold weight_sum, score_sum, matched_rules, drop_weightless; simpl.
  - rewrite <- (Qsum_map_ext (fun r => 1 * weight r) weight) by (intros; lra).
    rewrite (H (fun _ => 1)). apply Qsum_map_ext. intros; lra.
  - apply (H (fun r => priorityMapping (rule_result r inputs))).
Qed.

Lemma same_effect_results (inputs : Input) (rs rs' : list (FuzzyRule Input)) :
  Forall2 (same_effect inputs) rs rs' ->
  map (fun r => mkEvaluation (rule_result r inputs) (weight r))
      (filter (fun r => condition r inputs) rs)
  = map (fun r => mkEvaluation (rule_result r inputs) (weight r))
        (filter (fun r => condition r inputs) rs').
Proof.
  induction 1 as [|r r' rs rs' [Hc He] _ IH]; [reflexivity|].
  cbn [filter]. rewrite <- Hc. destruct (condition r inputs) eqn:C; [|exact IH].
  destruct (He eq_refl) as [E1 E2]. cbn [map]. now rewrite E1, E2, IH.
Qed.

(** A rule whose condition fails has no influence: two engines whose
    rules, taken pairwise, either both fail on the inputs or both match
    with the same result and weight, collect the same results and give
    the same answer.  The consequence and weight of a failing rule are
    never looked at. *)
Theorem infer_ignores_failing_rules e e' (inputs : Input) :
  Forall2 (same_effect inputs) (rules e) (rules e') ->
  infer_results (rules e) inputs = infer_results (rules e') inputs
  /\ infer e inputs = infer e' inputs.
Proof.
  intros H.
  assert (E : infer_results (rules e) inputs = infer_results (rules e') inputs).
  { rewrite !infer_results_matched. now apply same_effect_results. }
  split; [exact E|]. unfold infer. now rewrite E.
Qed.

(** Rules that score 0 (stored FuzzySets, unknown labels, "Low Priority")
    can only produce "Low Priority": when every matching rule scores 0,
    that is the answer, whatever the weights. *)
Theorem infer_of_unscored_rules_is_low e (inputs : Input) :
  (forall r, In r (matched_rules e inputs) ->
             priorityMapping (rule_result r inputs) = 0) ->
  infer e inputs = "Low Priority"%string.
Proof.
  intros Hs. rewrite infer_by_sums.
  destruct (Qgt_bool (weight_sum e inputs) 0); [|reflexivity].
  assert (Z : score_sum e inputs == 0).
  { unfold score_sum. induction (matched_rules e inputs) as [|r ms IH]; simpl;
      [reflexivity|].
    rewrite (Hs r) by now left. rewrite IH; [lra|].
    intros r' Hr'. apply Hs. now right. }
  rewrite (reversePriorityMapping_Qeq _ 0); [reflexivity|].
  rewrite Z. unfold Qdiv. ring.
Qed.

End InferLaws.

Lemma infer_ignores_failing_rules_witness :
  infer label_engine (mkTicket 5 0) = infer label_engine' (mkTicket 5 0).
Proof.
  apply (infer_ignores_failing_rules label_engine label_engine' (mkTicket 5 0)).
  constructor; [|constructor; [|constructor; [|constructor]]].
  - split; [reflexivity | intros _; split; reflexivity].
  - split; [reflexivity | intros H; discriminate H].
  - split; [reflexivity | intros _; split; reflexivity].
Defined.

Lemma infer_of_unscored_rules_is_low_witness :
  infer notch_engine (mkTicket 4 0) = "Low Priority"%string.
Proof.
  apply (infer_of_unscored_rules_is_low notch_engine (mkTicket 4 0)).
  intros r [<-|[<-|[]]]; reflexivity.
Defined.

(** ** inferenceEngine.js: scores and thresholds *)

Lemma reversePriorityMapping_cases (score : Q) :
  (2.5 <= score /\ reversePriorityMapping score = "Urgent"%string)
  \/ (1.5 <= score < 2.5 /\ reversePriorityMapping score = "High Priority"%string)
  \/ (0.5 <= score < 1.5 /\ reversePriorityMapping score = "Medium Priority"%string)
  \/ (score < 0.5 /\ reversePriorityMapping score = "Low Priority"%string).
Proof.
  unfold reversePriorityMapping.
  destruct (Qle_bool 2.5 score) eqn:E1.
  { left. split; [now apply Qle_bool_iff | reflexivity]. }
  assert (L1 : score < 2.5) by (apply Qgt_bool_true; unfold Qgt_bool; now rewrite E1).
  destruct (Qle_bool 1.5 score) eqn:E2.
  { right; left. apply Qle_bool_iff in E2. repeat split; assumption. }
  assert (L2 : score < 1.5) by (apply Qgt_bool_true; unfold Qgt_bool; now rewrite E2).
  destruct (Qle_bool 0.5 score) eqn:E3.
  { right; right; left. apply Qle_bool_iff in E3. repeat split; assumption. }
  assert (L3 : score < 0.5) by (apply Qgt_bool_true; unfold Qgt_bool; now rewrite E3).
  right; right; right. split; [assumption | reflexivity].
Qed.

Ltac label_cases s :=
  let H := fresh "H" in
  let E := fresh "E" in
  destruct (reversePriorityMapping_cases s) as [[H E]|[[H E]|[[H E]|[H E]]]];
  rewrite E; clear E.

(** The thresholds round a score to the nearest label: the score of the
    answered label is monotone in the mean, and for a mean between 0 and 3
    it differs from the mean by at most 1/2.  Mapping a label to its score
    and back gives the label again. *)
Theorem reversePriorityMapping_rounds_to_nearest :
  (forall s s', s <= s' ->
     label_score (reversePriorityMapping s) <= label_score (reversePriorityMapping s'))
  /\ (forall s, 0 <= s <= 3 ->
        s - (1 # 2) < label_score (reversePriorityMapping s) <= s + (1 # 2))
  /\ (forall l, In l labels -> reversePriorityMapping (label_score l) = l)
  /\ (forall v, In (reversePriorityMapping (priorityMapping v)) labels).
Proof.
  split; [|split; [|split]].
  - intros s s' Hle. label_cases s; label_cases s';
      unfold label_score; simpl; lra.
  - intros s Hs. label_cases s; unfold label_score; simpl; lra.
  - intros l [<-|[<-|[<-|[<-|[]]]]]; reflexivity.
  - intros v. apply reversePriorityMapping_labels.
Qed.

Lemma reversePriorityMapping_rounds_to_nearest_witness :
  label_score (reversePriorityMapping (7 # 4)) <= label_score (reversePriorityMapping (5 # 2))
  /\ (7 # 4) - (1 # 2) < label_score (reversePriorityMapping (7 # 4)) <= (7 # 4) + (1 # 2)
  /\ reversePriorityMapping (label_score "High Priority") = "High Priority"%string.
Proof.
  destruct reversePriorityMapping_rounds_to_nearest as (Hmono & Hnear & Hback & _).
  split; [|split].
  - apply Hmono. discriminate.
  - apply Hnear. split; discriminate.
  - apply Hback. right. left. reflexivity.
Defined.

(** ** The sampling loop: divergence, empty domains, the sampled points *)




(** On an empty domain (max < min) nothing is sampled, whatever the step:
    the two centroids and the mean of maxima return 0 and the bisector
    returns min. *)
Theorem sampling_on_empty_domain
        {Input : Type} (A : FuzzySet) (e : InferenceEngine Input) (min max step : Q) :
  max < min ->
  forall fuel,
    centroid (S fuel) A min max step = Some 0
    /\ defuzzifyCentroid (S fuel) e min max step = Some 0
    /\ defuzzifyMOM (S fuel) e min max step = Some 0
    /\ defuzzifyBisector (S fuel) e min max step = Some min.
Proof.
  intros Hempty fuel.
  assert (Hb : Qle_bool min max = false).
  { destruct (Qle_bool min max) eqn:E; [|reflexivity]. apply Qle_bool_iff in E. lra. }
  assert (Hexit : forall (S : Type) (body : Q -> S -> ctl S) (s : S),
             for_loop (Datatypes.S fuel) min max step body s = Some s).
  { intros S body s. simpl. now rewrite Hb. }
  unfold centroid, defuzzifyCentroid, defuzzifyMOM, defuzzifyBisector.
  cbv zeta. rewrite !Hexit. repeat split.
Qed.

Lemma sampling_on_empty_domain_witness :
  centroid 1 notch 3 2 (-1) = Some 0
  /\ defuzzifyCentroid 1 notch_engine 3 2 (-1) = Some 0
  /\ defuzzifyMOM 1 notch_engine 3 2 (-1) = Some 0
  /\ defuzzifyBisector 1 notch_engine 3 2 (-1) = Some 3.
Proof.
  apply (sampling_on_empty_domain notch notch_engine 3 2 (-1)). reflexivity.
Defined.

(** * The code over binary64 numbers: sums, sampled points, returned values *)

Module Binary64Laws.

Import Binary64.

#[local] Open Scope float_scope.
#[local] Set Warnings "-inexact-float".

(** ** Comparisons of binary64 numbers *)

Ltac cmp_cases :=
  repeat match goal with
         | H : context [Z.compare ?a ?b] |- _ => destruct (Z.compare_spec a b)
         | |- context [Z.compare ?a ?b] => destruct (Z.compare_spec a b)
         | H : context [Pos.compare_cont Eq ?a ?b] |- _ =>
             change (Pos.compare_cont Eq a b) with (Pos.compare a b) in *;
             destruct (Pos.compare_spec a b)
         | |- context [Pos.compare_cont Eq ?a ?b] =>
             change (Pos.compare_cont Eq a b) with (Pos.compare a b) in *;
             destruct (Pos.compare_spec a b)
         end.

(** Case analysis on the shape of every specification-level float. *)
Ltac sf_cases :=
  unfold SFltb, SFeqb, SFleb, SFcompare;
  repeat match goal with
         | x : spec_float |- _ => destruct x as [[|]|[|]| |[|] ? ?]
         end;
  simpl; intros; try discriminate; try reflexivity;
  cmp_cases; simpl in *; subst; try discriminate; try reflexivity; try lia.

Lemma SFltb_trans (a b c : spec_float) :
  SFltb a b = true -> SFltb b c = true -> SFltb a c = true.
Proof. sf_cases. Qed.

Lemma SFltb_irrefl (a : spec_float) : SFltb a a = false.
Proof. sf_cases. Qed.

Lemma SFeqb_ltb_r (a b c : spec_float) :
  SFeqb a b = true -> SFltb c b = true -> SFltb c a = true.
Proof. sf_cases. Qed.

Lemma SFltb_eqb_refl (a c : spec_float) : SFltb c a = true -> SFeqb a a = true.
Proof. sf_cases. Qed.

Lemma SFeqb_zero_ltb (a : spec_float) (s : bool) :
  SFeqb a (S754_zero s) = true -> SFltb (S754_zero s) a = false.
Proof. sf_cases. Qed.

Lemma SFeqb_zero_inv (a : spec_float) (s : bool) :
  SFeqb a (S754_zero s) = true -> exists s', a = S754_zero s'.
Proof.
  destruct a as [s'|[|]| |[|] m e]; simpl; intros H; try discriminate.
  now exists s'.
Qed.

Lemma ltb_trans (a b c : float) : (a <? b) = true -> (b <? c) = true -> (a <? c) = true.
Proof. rewrite !ltb_spec. apply SFltb_trans. Qed.

Lemma ltb_irrefl (a : float) : (a <? a) = false.
Proof. rewrite ltb_spec. apply SFltb_irrefl. Qed.

Lemma eqb_ltb_r (a b c : float) : (a =? b) = true -> (c <? b) = true -> (c <? a) = true.
Proof. rewrite eqb_spec, !ltb_spec. apply SFeqb_ltb_r. Qed.

Lemma ltb_eqb_refl (a c : float) : (c <? a) = true -> (a =? a) = true.
Proof. rewrite eqb_spec, ltb_spec. apply SFltb_eqb_refl. Qed.

(** A number equal to 0 is +0 or -0. *)
Lemma eqb_zero_inv (a : float) : (a =? 0) = true -> a = 0 \/ a = (-0).
Proof.
  rewrite eqb_spec. intros H.
  destruct (SFeqb_zero_inv (Prim2SF a) false H) as [[|] E].
  - right. apply Prim2SF_inj. now rewrite E.
  - left. apply Prim2SF_inj. now rewrite E.
Qed.

Lemma eqb_zero_not_positive (a : float) : (a =? 0) = true -> (0 <? a) = false.
Proof. intros H. destruct (eqb_zero_inv a H) as [-> | ->]; reflexivity. Qed.

(** Dividing by a zero never gives a zero: the quotient is infinite or
    NaN. *)
Lemma div_by_zero_not_zero (n d : float) : (d =? 0) = true -> (n / d =? 0) = false.
Proof.
  intros H. rewrite eqb_spec, div_spec.
  destruct (eqb_zero_inv d H) as [-> | ->];
    change (Prim2SF 0) with (S754_zero false);
    change (Prim2SF (-0)) with (S754_zero true);
    unfold SF64div, SFdiv; destruct (Prim2SF n) as [[|]|[|]| |[|] ? ?]; reflexivity.
Qed.

(** ** Sums of positive binary64 numbers *)

Lemma shr_1_digits (s : shr_record) :
  Zdigits2 (shr_m (shr_1 s)) = Z.max 0 (Zdigits2 (shr_m s) - 1)
  /\ ((0 <= shr_m s)%Z -> (0 <= shr_m (shr_1 s))%Z).
Proof.
  destruct s as [m r s]. destruct m as [|p|p].
  - simpl. split; [reflexivity | lia].
  - destruct p; cbn [shr_1 shr_m Zdigits2 digits2_pos];
      rewrite ?Pos2Z.inj_succ; split; lia.
  - destruct p; cbn [shr_1 shr_m Zdigits2 digits2_pos];
      rewrite ?Pos2Z.inj_succ; split; lia.
Qed.

Lemma iter_shr_1_digits (p : positive) (s : shr_record) :
  Zdigits2 (shr_m (iter_pos shr_1 p s)) = Z.max 0 (Zdigits2 (shr_m s) - Z.pos p)
  /\ ((0 <= shr_m s)%Z -> (0 <= shr_m (iter_pos shr_1 p s))%Z).
Proof.
  revert s; induction p as [p IH|p IH|]; intros s; simpl.
  - destruct (shr_1_digits s) as [D1 N1].
    destruct (IH (shr_1 s)) as [D2 N2].
    destruct (IH (iter_pos shr_1 p (shr_1 s))) as [D3 N3].
    split; [rewrite D3, D2, D1; lia | auto].
  - destruct (IH s) as [D2 N2].
    destruct (IH (iter_pos shr_1 p s)) as [D3 N3].
    split; [rewrite D3, D2; lia | auto].
  - apply shr_1_digits.
Qed.

Lemma Zdigits2_pos_inv (z : Z) : (0 <= z)%Z -> (0 < Zdigits2 z)%Z -> exists q, z = Z.pos q.
Proof. destruct z as [|q|q]; simpl; intros; try lia. now exists q. Qed.

Lemma shr_record_of_loc_m (m : Z) (l : location) : shr_m (shr_record_of_loc m l) = m.
Proof. destruct l as [|[| |]]; reflexivity. Qed.

Lemma shr_fexp_pos (m : positive) (e : Z) (l : location) :
  (emin <= e)%Z ->
  exists q, shr_m (fst (shr_fexp prec emax (Z.pos m) e l)) = Z.pos q
            /\ (emin <= snd (shr_fexp prec emax (Z.pos m) e l))%Z.
Proof.
  intros He. unfold shr_fexp, shr.
  set (n := (fexp prec emax (Zdigits2 (Z.pos m) + e) - e)%Z).
  assert (Hn : (n = Z.max (Z.pos (digits2_pos m) - prec) (emin - e))%Z).
  { unfold n, fexp. simpl Zdigits2. lia. }
  destruct n as [|p|p] eqn:En; simpl fst; simpl snd.
  - rewrite shr_record_of_loc_m. exists m. split; [reflexivity | exact He].
  - destruct (iter_shr_1_digits p (shr_record_of_loc (Z.pos m) l)) as [D N].
    rewrite shr_record_of_loc_m in D, N.
    destruct (Zdigits2_pos_inv (shr_m (iter_pos shr_1 p (shr_record_of_loc (Z.pos m) l))))
      as [q Hq].
    + apply N. lia.
    + rewrite D. simpl Zdigits2. unfold prec in *. lia.
    + exists q. split; [exact Hq | lia].
  - rewrite shr_record_of_loc_m. exists m. split; [reflexivity | exact He].
Qed.

Lemma round_nearest_even_pos (q : positive) (l : location) :
  exists q', round_nearest_even (Z.pos q) l = Z.pos q'.
Proof.
  destruct l as [|[| |]]; cbn [round_nearest_even];
    try destruct (Z.even (Z.pos q)); eexists; reflexivity.
Qed.

Lemma binary_round_aux_pos (m : positive) (e : Z) (l : location) :
  (emin <= e)%Z -> strictly_positive (binary_round_aux prec emax false (Z.pos m) e l).
Proof.
  intros He. unfold binary_round_aux.
  destruct (shr_fexp_pos m e l He) as (q & Hq & He').
  destruct (shr_fexp prec emax (Z.pos m) e l) as [mrs' e'] eqn:E1. simpl in Hq, He'.
  rewrite Hq.
  destruct (round_nearest_even_pos q (loc_of_shr_record mrs')) as [q' ->].
  destruct (shr_fexp_pos q' e' loc_Exact He') as (q'' & Hq'' & _).
  destruct (shr_fexp prec emax (Z.pos q') e' loc_Exact) as [mrs'' e''] eqn:E2.
  simpl in Hq''. rewrite Hq''.
  destruct (e'' <=? emax - prec)%Z; exact I.
Qed.

Lemma binary_round_pos (p : positive) (e : Z) :
  (emin <= e)%Z -> strictly_positive (binary_round prec emax false p e).
Proof.
  intros He. unfold binary_round, shl_align.
  set (e' := fexp prec emax (Z.pos (digits2_pos p) + e)).
  assert (He' : (emin <= e')%Z) by (unfold e', fexp; lia).
  destruct (e' - e)%Z; now apply binary_round_aux_pos.
Qed.

Lemma valid_exponent (s : bool) (m : positive) (e : Z) :
  valid_binary (S754_finite s m e) = true -> (emin <= e)%Z.
Proof.
  simpl. unfold bounded, canonical_mantissa. intros H.
  apply andb_prop in H. destruct H as [H _]. apply Z.eqb_eq in H.
  unfold fexp in H. lia.
Qed.

Lemma SFadd_pos (x y : spec_float) :
  valid_binary x = true -> valid_binary y = true ->
  strictly_positive x -> strictly_positive y -> strictly_positive (SF64add x y).
Proof.
  destruct x as [sx|[|]| |[|] mx ex]; destruct y as [sy|[|]| |[|] my ey];
    simpl; intros Vx Vy Px Py; try contradiction; try exact I.
  change (bounded prec emax mx ex = true) with
    (valid_binary (S754_finite false mx ex) = true) in Vx.
  change (bounded prec emax my ey = true) with
    (valid_binary (S754_finite false my ey) = true) in Vy.
  apply valid_exponent in Vx, Vy.
  unfold SF64add, SFadd, cond_Zopp. simpl Z.add. unfold binary_normalize.
  apply binary_round_pos. lia.
Qed.

Lemma add_positive (a b : float) :
  strictly_positive (Prim2SF a) -> strictly_positive (Prim2SF b) -> strictly_positive (Prim2SF (a + b)).
Proof.
  intros Pa Pb. rewrite add_spec. apply SFadd_pos; auto using Prim2SF_valid.
Qed.

Lemma positive_not_zero (a : float) : strictly_positive (Prim2SF a) -> (a =? 0) = false.
Proof.
  rewrite eqb_spec. change (Prim2SF 0) with (S754_zero false).
  destruct (Prim2SF a) as [s|[|]| |[|] m e]; simpl; intros H; try contradiction; reflexivity.
Qed.

(** Counting from 0 by steps of 1 never comes back to 0. *)
Lemma count_of_positive (l : list float) :
  l <> [] -> strictly_positive (Prim2SF (count_of l)).
Proof.
  assert (H : forall (l : list float) (c : float),
             strictly_positive (Prim2SF c) ->
             strictly_positive (Prim2SF (fold_left (fun c _ => c + 1) l c))).
  { intros l'. induction l' as [|x l' IH]; intros c Hc; simpl; [exact Hc|].
    apply IH. apply add_positive; [exact Hc | exact I]. }
  destruct l as [|x l]; [congruence|]. intros _.
  unfold count_of. simpl. apply H. exact I.
Qed.

Lemma count_of_not_zero (l : list float) : l <> [] -> (count_of l =? 0) = false.
Proof. intros H. apply positive_not_zero. now apply count_of_positive. Qed.

(** ** The sampling loop *)

Section Loop.

Variables max step : float.

Lemma sample_points_mono (fuel fuel' : nat) (x : float) (xs : list float) :
  sample_points fuel x max step = Some xs ->
  (fuel <= fuel')%nat ->
  sample_points fuel' x max step = Some xs.
Proof.
  revert fuel' x xs; induction fuel as [|k IH]; intros fuel' x xs H Hle.
  - discriminate.
  - destruct fuel' as [|k']; [lia|].
    simpl in *. destruct (x <=? max); [|exact H].
    destruct (sample_points k (x + step) max step) as [ys|] eqn:E; [|discriminate].
    rewrite (IH k' _ ys E) by lia. exact H.
Qed.

(** A non-empty domain is sampled at [min] first; an empty one not at
    all. *)
Lemma sample_points_head (fuel : nat) (x : float) (xs : list float) :
  sample_points fuel x max step = Some xs ->
  ((x <=? max) = true -> exists ys, xs = x :: ys)
  /\ ((x <=? max) = false -> xs = []).
Proof.
  destruct fuel as [|k]; [discriminate|]. simpl. intros H. split; intros Hx;
    rewrite Hx in H.
  - destruct (sample_points k (x + step) max step) as [ys|]; [|discriminate].
    injection H as <-. now exists ys.
  - now injection H as <-.
Qed.

Lemma samples_unique (min : float) (xs ys : list float) :
  samples min max step xs -> samples min max step ys -> xs = ys.
Proof.
  intros [f1 H1] [f2 H2].
  apply (sample_points_mono _ (Nat.max f1 f2)) in H1; [|lia].
  apply (sample_points_mono _ (Nat.max f1 f2)) in H2; [|lia].
  congruence.
Qed.

Lemma for_loop_run {S : Type} (body : float -> S -> ctl S) (fuel : nat) (x : float)
      (xs : list float) (s : S) :
  sample_points fuel x max step = Some xs ->
  for_loop fuel x max step body s = Some (run_body body xs s).
Proof.
  revert x xs s; induction fuel as [|k IH]; intros x xs s H; [discriminate|].
  simpl in *. destruct (x <=? max).
  - destruct (sample_points k (x + step) max step) as [ys|] eqn:E; [|discriminate].
    injection H as <-. simpl. destruct (body x s) as [s'|s']; [|reflexivity].
    now apply IH.
  - now injection H as <-.
Qed.

Lemma run_body_fold {S : Type} (f : float -> S -> S) (xs : list float) (s : S) :
  run_body (fun x a => Next (f x a)) xs s = fold_left (fun a x => f x a) xs s.
Proof. revert s; induction xs as [|x xs IH]; intros s; simpl; [reflexivity | apply IH]. Qed.

(** A run of the loop over its sample points returns, whatever larger
    fuel it is given. *)
Lemma returns_of_samples {S : Type} (body : float -> S -> ctl S) (out : S -> float)
      (min : float) (xs : list float) (s : S) (v : float) :
  samples min max step xs ->
  out (run_body body xs s) = v ->
  returns (fun fuel => option_map out (for_loop fuel min max step body s)) v.
Proof.
  intros [fuel H] Hv. exists fuel. intros fuel' Hle.
  rewrite (for_loop_run body fuel' min xs s) by (eapply sample_points_mono; eauto).
  simpl. now rewrite Hv.
Qed.

(** A loop whose body never breaks and whose variable no longer moves
    below [max] runs out of every fuel. *)
Lemma for_loop_stalls {St : Type} (body : float -> St -> ctl St) (k : nat) :
  (forall x s, exists s', body x s = Next s') ->
  forall (x : float) (fuel : nat) (s : St),
    (forall j, (j <= k)%nat -> (nth_point j x step <=? max) = true) ->
    nth_point k x step + step = nth_point k x step ->
    for_loop fuel x max step body s = None.
Proof.
  intros Hnext. induction k as [|k IH]; intros x fuel s Hle Hfix.
  - simpl in Hfix. pose proof (Hle 0%nat (Nat.le_refl 0)) as H0. simpl in H0.
    revert s. induction fuel as [|f IHf]; intros s; [reflexivity|].
    simpl. rewrite H0. destruct (Hnext x s) as [s' ->]. rewrite Hfix. apply IHf.
  - destruct fuel as [|f]; [reflexivity|].
    simpl. pose proof (Hle 0%nat (Nat.le_0_l _)) as H0. simpl in H0. rewrite H0.
    destruct (Hnext x s) as [s' ->]. apply IH.
    + intros j Hj. apply (Hle (S j)). lia.
    + exact Hfix.
Qed.

End Loop.

Lemma returns_unique {A : Type} (run : nat -> option A) (v w : A) :
  returns run v -> returns run w -> v = w.
Proof.
  intros [f1 H1] [f2 H2].
  pose proof (H1 (Nat.max f1 f2) (Nat.le_max_l _ _)) as E1.
  pose proof (H2 (Nat.max f1 f2) (Nat.le_max_r _ _)) as E2.
  congruence.
Qed.

Lemma fold_left_add_map {A : Type} (f : A -> float) (l : list A) (t : float) :
  fold_left (fun acc a => acc + f a) l t = fold_left add (map f l) t.
Proof. revert t; induction l as [|a l IH]; intros t; simpl; [reflexivity | apply IH]. Qed.

(** ** Centroid defuzzification *)

Lemma centroid_fold (mu : float -> float) (xs : list float) (a : centroid_acc) :
  fold_left (fun a x => mkCentroidAcc (numerator a + x * mu x) (denominator a + mu x))
            xs a
  = mkCentroidAcc (fold_left add (map (fun x => x * mu x) xs) (numerator a))
                  (fold_left add (map mu xs) (denominator a)).
Proof.
  revert a; induction xs as [|x xs IH]; intros a; simpl.
  - now destruct a.
  - now rewrite IH.
Qed.

Lemma centroid_loop_returns (mu : float -> float) (min max step : float)
      (xs : list float) :
  samples min max step xs ->
  returns
    (fun fuel =>
       option_map centroid_result
         (for_loop fuel min max step
            (fun x a => Next (mkCentroidAcc (numerator a + x * mu x) (denominator a + mu x)))
            (mkCentroidAcc 0 0)))
    (if fsum (map mu xs) =? 0 then 0
     else fsum (map (fun x => x * mu x) xs) / fsum (map mu xs)).
Proof.
  intros Hs. apply (returns_of_samples _ _ _ _ _ xs); [exact Hs|].
  rewrite (run_body_fold
             (fun x a => mkCentroidAcc (numerator a + x * mu x) (denominator a + mu x))).
  rewrite centroid_fold. reflexivity.
Qed.

(** C7: whenever the sampling loop ends, having visited the points xs,
    FuzzySet.centroid and InferenceEngine.defuzzifyCentroid return 0 when
    the membership mass summed over xs is exactly 0 (+0 or -0), and the
    quotient sum(x*mu) / sum(mu) of the two accumulated sums otherwise.
    The guard matters: a quotient by a zero mass is never 0. *)
Theorem centroid_zero_mass_guard
        {Input : Type} (A : FuzzySet) (e : InferenceEngine Input)
        (min max step : float) (xs : list float) :
  samples min max step xs ->
  ((fsum (map (membershipDegree A) xs) =? 0) = true ->
   returns (fun fuel => centroid fuel A min max step) 0)
  /\ ((fsum (map (membershipDegree A) xs) =? 0) = false ->
      returns (fun fuel => centroid fuel A min max step)
              (fsum (map (fun x => x * membershipDegree A x) xs)
               / fsum (map (membershipDegree A) xs)))
  /\ ((fsum (map (aggregate_curve e) xs) =? 0) = true ->
      returns (fun fuel => defuzzifyCentroid fuel e min max step) 0)
  /\ ((fsum (map (aggregate_curve e) xs) =? 0) = false ->
      returns (fun fuel => defuzzifyCentroid fuel e min max step)
              (fsum (map (fun x => x * aggregate_curve e x) xs)
               / fsum (map (aggregate_curve e) xs)))
  /\ (forall moment mass : float,
        (mass =? 0) = true -> (moment / mass =? 0) = false).
Proof.
  intros Hs.
  pose proof (centroid_loop_returns (membershipDegree A) min max step xs Hs) as HA.
  pose proof (centroid_loop_returns (aggregate_curve e) min max step xs Hs) as He.
  split; [|split; [|split; [|split]]].
  - intros H. rewrite H in HA. exact HA.
  - intros H. rewrite H in HA. exact HA.
  - intros H. rewrite H in He. exact He.
  - intros H. rewrite H in He. exact He.
  - apply div_by_zero_not_zero.
Qed.

Lemma centroid_zero_mass_guard_witness :
  returns (fun fuel => centroid fuel flat 0 1 0.1) 0.5
  /\ returns (fun fuel => defuzzifyCentroid fuel label_engine 0 1 0.1) 0
  /\ (0 / 0 =? 0) = false.
Proof.
  assert (Hs : samples 0 1 0.1 tenth_points) by (exists 12%nat; reflexivity).
  destruct (centroid_zero_mass_guard flat label_engine 0 1 0.1 tenth_points Hs)
    as (_ & Hquot & Hzero & _ & Hdiv).
  split; [|split].
  - apply Hquot. reflexivity.
  - apply Hzero. reflexivity.
  - apply Hdiv. reflexivity.
Defined.

(** ** The loop variable can stop moving *)

(** When the loop variable reaches a value that adding the step does not
    change (the step is 0, or too small to be seen at that magnitude)
    while still at or below max, none of the four sampling methods ever
    returns. *)
Theorem sampling_stalls_forever
        {Input : Type} (A : FuzzySet) (e : InferenceEngine Input)
        (min max step : float) (k : nat) :
  (forall j, (j <= k)%nat -> (nth_point j min step <=? max) = true) ->
  nth_point k min step + step = nth_point k min step ->
  forall fuel,
    centroid fuel A min max step = None
    /\ defuzzifyCentroid fuel e min max step = None
    /\ defuzzifyMOM fuel e min max step = None
    /\ defuzzifyBisector fuel e min max step = None.
Proof.
  intros Hle Hfix fuel.
  unfold centroid, defuzzifyCentroid, defuzzifyMOM, defuzzifyBisector. cbv zeta.
  rewrite !(for_loop_stalls max step _ k) by
      (try assumption; intros x s; eexists; reflexivity).
  repeat split.
Qed.

Lemma sampling_stalls_forever_witness :
  centroid 1000 flat 1e16 (1e16 + 2) 1 = None
  /\ defuzzifyCentroid 1000 flat_engine 1e16 (1e16 + 2) 1 = None
  /\ defuzzifyMOM 1000 flat_engine 1e16 (1e16 + 2) 1 = None
  /\ defuzzifyBisector 1000 flat_engine 1e16 (1e16 + 2) 1 = None.
Proof.
  apply (sampling_stalls_forever flat flat_engine 1e16 (1e16 + 2) 1 0).
  - intros j Hj. assert (E : j = 0%nat) by lia. subst j. reflexivity.
  - reflexivity.
Defined.

(** ** inferenceEngine.js: [infer] *)

Section Infer.

Context {Input : Type}.
Implicit Types (e : InferenceEngine Input) (r : FuzzyRule Input).

Lemma infer_results_acc_binary64 (rs : list (FuzzyRule Input)) (inputs : Input)
      (acc : list evaluation) :
  fold_left
    (fun results rule =>
       match evaluate rule inputs with
       | Some ev => results ++ [ev]
       | None => results
       end) rs acc
  = acc ++ map (fun r => mkEvaluation (rule_result r inputs) (weight r))
               (filter (fun r => condition r inputs) rs).
Proof.
  revert acc; induction rs as [|r rs IH]; intros acc; simpl.
  - now rewrite app_nil_r.
  - rewrite IH. unfold evaluate. destruct (condition r inputs); [|reflexivity].
    simpl. now rewrite <- app_assoc.
Qed.

Lemma infer_results_matched_binary64 e (inputs : Input) :
  infer_results (rules e) inputs
  = map (fun r => mkEvaluation (rule_result r inputs) (weight r))
        (matched_rules e inputs).
Proof. unfold infer_results. now rewrite infer_results_acc_binary64. Qed.

Lemma aggregate_fold_binary64 (evs : list evaluation) (a : aggregate_acc) :
  fold_left aggregate_step evs a
  = mkAggregateAcc
      (fold_left add (map eweight evs) (totalWeight a))
      (fold_left add (map (fun ev => priorityMapping (result ev) * eweight ev) evs)
                 (weightedSum a)).
Proof.
  revert a; induction evs as [|ev evs IH]; intros a; simpl.
  - now destruct a.
  - now rewrite IH.
Qed.

(** [infer] in terms of the matched rules and the two accumulated sums. *)
Lemma infer_sums_binary64 e (inputs : Input) :
  infer e inputs =
  match matched_rules e inputs with
  | [] => "Low Priority"%string
  | _ => if 0 <? weight_sum e inputs
         then reversePriorityMapping (score_sum e inputs / weight_sum e inputs)
         else "Low Priority"%string
  end.
Proof.
  unfold infer, weight_sum, score_sum. rewrite infer_results_matched_binary64.
  destruct (matched_rules e inputs) as [|r ms]; [reflexivity|].
  set (evs := map _ (r :: ms)).
  replace (aggregateResults evs)
    with (let a := fold_left aggregate_step evs (mkAggregateAcc 0 0) in
          if 0 <? totalWeight a
          then reversePriorityMapping (weightedSum a / totalWeight a)
          else "Low Priority"%string) by reflexivity.
  cbv zeta. rewrite aggregate_fold_binary64. unfold evs, fsum. rewrite !map_map. reflexivity.
Qed.

(** C1: [infer] collects one result per matching rule, in rule order.
    With no matching rule it answers "Low Priority".  Otherwise each
    result is scored by the fixed table (Urgent 3, High Priority 2,
    Medium Priority 1, anything else 0, a FuzzySet included), the sums
    sum(score*weight) and sum(weight) are accumulated in rule order, and
    when the total weight is above 0 the thresholds 2.5, 1.5 and 0.5 turn
    their quotient into a label; a total weight of 0, like every total
    weight that is not above 0, gives "Low Priority". *)
Theorem infer_is_thresholded_weighted_mean e (inputs : Input) :
  infer_results (rules e) inputs
    = map (fun r => mkEvaluation (rule_result r inputs) (weight r))
          (matched_rules e inputs)
  /\ (matched_rules e inputs = [] -> infer e inputs = "Low Priority"%string)
  /\ ((0 <? weight_sum e inputs) = true ->
      infer e inputs
      = reversePriorityMapping (score_sum e inputs / weight_sum e inputs))
  /\ ((weight_sum e inputs =? 0) = true -> infer e inputs = "Low Priority"%string)
  /\ ((0 <? weight_sum e inputs) = false -> infer e inputs = "Low Priority"%string)
  /\ (priorityMapping (VString "Urgent") = 3
      /\ priorityMapping (VString "High Priority") = 2
      /\ priorityMapping (VString "Medium Priority") = 1
      /\ (forall A, priorityMapping (VFuzzySet A) = 0)
      /\ (forall v, v <> VString "Urgent" -> v <> VString "High Priority" ->
                    v <> VString "Medium Priority" -> priorityMapping v = 0))
  /\ (forall score,
        ((2.5 <=? score) = true -> reversePriorityMapping score = "Urgent"%string)
        /\ ((2.5 <=? score) = false -> (1.5 <=? score) = true ->
            reversePriorityMapping score = "High Priority"%string)
        /\ ((1.5 <=? score) = false -> (0.5 <=? score) = true ->
            (2.5 <=? score) = false ->
            reversePriorityMapping score = "Medium Priority"%string)
        /\ ((2.5 <=? score) = false -> (1.5 <=? score) = false ->
            (0.5 <=? score) = false ->
            reversePriorityMapping score = "Low Priority"%string)).
Proof.
  split; [apply infer_results_matched_binary64|].
  split; [intros H; rewrite infer_sums_binary64, H; reflexivity|].
  split.
  { intros H. rewrite infer_sums_binary64.
    destruct (matched_rules e inputs) as [|r ms] eqn:Em.
    - unfold weight_sum in H. rewrite Em in H. discriminate H.
    - now rewrite H. }
  split.
  { intros H. rewrite infer_sums_binary64.
    destruct (matched_rules e inputs); [reflexivity|].
    now rewrite (eqb_zero_not_positive _ H). }
  split.
  { intros H. rewrite infer_sums_binary64.
    destruct (matched_rules e inputs); [reflexivity|].
    now rewrite H. }
  split.
  { repeat split; try reflexivity.
    intros [s| | |] H1 H2 H3; try reflexivity. simpl.
    destruct (String.eqb_spec s "Urgent"); [congruence|].
    destruct (String.eqb_spec s "High Priority"); [congruence|].
    destruct (String.eqb_spec s "Medium Priority"); [congruence|].
    reflexivity. }
  intros score. unfold reversePriorityMapping. repeat split.
  - intros ->. reflexivity.
  - intros -> ->. reflexivity.
  - intros H1 H2 H3. now rewrite H3, H1, H2.
  - intros -> -> ->. reflexivity.
Qed.

End Infer.

Lemma infer_is_thresholded_weighted_mean_witness :
  infer tenths_engine (mkTicket 1 0) = "Medium Priority"%string
  /\ infer label_engine (mkTicket 1 0) = "High Priority"%string
  /\ infer weightless_engine (mkTicket 1 0) = "Low Priority"%string
  /\ infer (mkInferenceEngine []) (mkTicket 1 0) = "Low Priority"%string.
Proof.
  destruct (infer_is_thresholded_weighted_mean tenths_engine (mkTicket 1 0))
    as (_ & _ & Hmean & _ & _ & _ & Hlabel).
  destruct (infer_is_thresholded_weighted_mean label_engine (mkTicket 1 0))
    as (_ & _ & Hmean' & _ & _ & _ & Hlabel').
  destruct (infer_is_thresholded_weighted_mean weightless_engine (mkTicket 1 0))
    as (_ & _ & _ & Hzero & _).
  destruct (infer_is_thresholded_weighted_mean (mkInferenceEngine []) (mkTicket 1 0))
    as (_ & Hnone & _).
  split; [|split; [|split]].
  - rewrite Hmean by reflexivity.
    apply (Hlabel (score_sum tenths_engine (mkTicket 1 0)
                   / weight_sum tenths_engine (mkTicket 1 0))); reflexivity.
  - rewrite Hmean' by reflexivity.
    apply (Hlabel' (score_sum label_engine (mkTicket 1 0)
                    / weight_sum label_engine (mkTicket 1 0))); reflexivity.
  - apply Hzero. reflexivity.
  - apply Hnone. reflexivity.
Defined.

(** ** Bisector defuzzification *)

Section BisectorSearch.

Variables (mu : float -> float) (totalArea step : float).

Lemma bisector_search_hit (pre : list float) (x : float) (post : list float)
      (l0 b0 : float) :
  (forall k, (0 < k <= length pre)%nat ->
             (totalArea / 2
              <=? fold_left add (map (fun x => mu x * step) (firstn k pre)) l0) = false) ->
  (totalArea / 2
   <=? fold_left add (map (fun x => mu x * step) (pre ++ [x])) l0) = true ->
  bisector (run_body (fun x a => bisector_step totalArea step (mu x) x a)
                     (pre ++ x :: post) (mkBisectorAcc l0 b0)) = x.
Proof.
  revert l0; induction pre as [|y pre IH]; intros l0 Hlow Hhit.
  - simpl in *. unfold bisector_step. simpl. now rewrite Hhit.
  - pose proof (Hlow 1%nat ltac:(simpl; lia)) as H1. simpl in H1.
    simpl. unfold bisector_step at 1. simpl. rewrite H1. apply IH; [|exact Hhit].
    intros k Hk. apply (Hlow (S k)). simpl. lia.
Qed.

Lemma bisector_search_miss (xs : list float) (l0 b0 : float) :
  (forall k, (0 < k <= length xs)%nat ->
             (totalArea / 2
              <=? fold_left add (map (fun x => mu x * step) (firstn k xs)) l0) = false) ->
  bisector (run_body (fun x a => bisector_step totalArea step (mu x) x a)
                     xs (mkBisectorAcc l0 b0)) = b0.
Proof.
  revert l0; induction xs as [|y xs IH]; intros l0 Hlow; [reflexivity|].
  pose proof (Hlow 1%nat ltac:(simpl; lia)) as H1. simpl in H1.
  simpl. unfold bisector_step at 1. simpl. rewrite H1. apply IH.
  intros k Hk. apply (Hlow (S k)). simpl. lia.
Qed.

End BisectorSearch.

Lemma defuzzifyBisector_run {Input : Type} (e : InferenceEngine Input)
      (fuel : nat) (min max step : float) (xs : list float) :
  sample_points fuel min max step = Some xs ->
  defuzzifyBisector fuel e min max step
  = Some (bisector
            (run_body
               (fun x a =>
                  bisector_step (area (aggregate_curve e) step xs)
                                step (aggregate_curve e x) x a)
               xs (mkBisectorAcc 0 min))).
Proof.
  intros H. unfold defuzzifyBisector. cbv zeta.
  rewrite (for_loop_run max step _ fuel min xs 0 H).
  rewrite (run_body_fold (fun x t => t + aggregate_mu (getFuzzySetConsequences e) x * step)).
  rewrite (fold_left_add_map (fun x => aggregate_mu (getFuzzySetConsequences e) x * step)).
  rewrite (for_loop_run max step _ fuel min xs _ H). reflexivity.
Qed.

Lemma defuzzifyBisector_returns {Input : Type} (e : InferenceEngine Input)
      (min max step : float) (xs : list float) (v : float) :
  samples min max step xs ->
  bisector (run_body
              (fun x a =>
                 bisector_step (area (aggregate_curve e) step xs)
                               step (aggregate_curve e x) x a)
              xs (mkBisectorAcc 0 min)) = v ->
  returns (fun fuel => defuzzifyBisector fuel e min max step) v.
Proof.
  intros [fuel Hf] Hv. exists fuel. intros fuel' Hle.
  rewrite (defuzzifyBisector_run e fuel' min max step xs)
    by (eapply sample_points_mono; eauto).
  now rewrite Hv.
Qed.

(** The rectangles of a curve that is 0 (or of a step that is 0) add up
    to +0, whatever their signs. *)
Lemma sum_of_zeros (l : list float) :
  (forall r, In r l -> (r =? 0) = true) -> fold_left add l 0 = 0.
Proof.
  induction l as [|r l IH]; intros H; simpl; [reflexivity|].
  destruct (eqb_zero_inv r (H r (or_introl eq_refl))) as [-> | ->];
    (change (0 + 0) with 0 || change (0 + -0) with 0);
    apply IH; intros r' Hr'; apply H; now right.
Qed.

(** C5: whenever the sampling loop ends, having visited the points xs,
    defuzzifyBisector takes the total area as the sum of mu*step
    accumulated over xs, walks xs again accumulating the left area, and
    returns the first sampled x at which the left area reaches or
    exceeds half of the total; when no sampled point reaches it the
    result is min, and so it is when every rectangle mu*step is 0, as on
    a curve that is 0 at every sampled point. *)
Theorem bisector_first_point_reaching_half
        {Input : Type} (e : InferenceEngine Input) (min max step : float)
        (xs : list float) :
  samples min max step xs ->
  (forall pre x post,
     xs = pre ++ x :: post ->
     (forall k, (0 < k <= length pre)%nat ->
                (area (aggregate_curve e) step xs / 2
                 <=? area (aggregate_curve e) step (firstn k xs)) = false) ->
     (area (aggregate_curve e) step xs / 2
      <=? area (aggregate_curve e) step (firstn (S (length pre)) xs)) = true ->
     returns (fun fuel => defuzzifyBisector fuel e min max step) x)
  /\ ((forall k, (0 < k <= length xs)%nat ->
                 (area (aggregate_curve e) step xs / 2
                  <=? area (aggregate_curve e) step (firstn k xs)) = false) ->
      returns (fun fuel => defuzzifyBisector fuel e min max step) min)
  /\ ((forall x, In x xs -> (aggregate_curve e x * step =? 0) = true) ->
      area (aggregate_curve e) step xs = 0
      /\ returns (fun fuel => defuzzifyBisector fuel e min max step) min).
Proof.
  intros Hs.
  assert (Hhit : forall pre x post,
             xs = pre ++ x :: post ->
             (forall k, (0 < k <= length pre)%nat ->
                        (area (aggregate_curve e) step xs / 2
                         <=? area (aggregate_curve e) step (firstn k xs)) = false) ->
             (area (aggregate_curve e) step xs / 2
              <=? area (aggregate_curve e) step (firstn (S (length pre)) xs)) = true ->
             returns (fun fuel => defuzzifyBisector fuel e min max step) x).
  { intros pre x post Hxs Hlow Hreach.
    apply (defuzzifyBisector_returns e min max step xs x Hs).
    set (total := area (aggregate_curve e) step xs) in *. clearbody total.
    unfold area, fsum in Hlow, Hreach. subst xs. apply bisector_search_hit.
    - intros k Hk. specialize (Hlow k Hk). rewrite firstn_app in Hlow.
      replace (k - length pre)%nat with 0%nat in Hlow by lia.
      rewrite firstn_0, app_nil_r in Hlow. exact Hlow.
    - rewrite firstn_app in Hreach.
      rewrite firstn_all2 in Hreach by lia.
      replace (S (length pre) - length pre)%nat with 1%nat in Hreach by lia.
      exact Hreach. }
  split; [exact Hhit|]. split.
  - intros Hlow. apply (defuzzifyBisector_returns e min max step xs min Hs).
    apply bisector_search_miss. exact Hlow.
  - intros Hzero.
    assert (Harea : forall l, (forall x, In x l -> In x xs) ->
                              area (aggregate_curve e) step l = 0).
    { intros l Hl. unfold area, fsum. apply sum_of_zeros. intros r Hr.
      apply in_map_iff in Hr. destruct Hr as (x & <- & Hx). apply Hzero, Hl, Hx. }
    split; [apply Harea; auto|].
    destruct xs as [|x0 rest] eqn:Exs.
    + apply (defuzzifyBisector_returns e min max step [] min Hs). reflexivity.
    + assert (Hx0 : x0 = min).
      { destruct Hs as [fuel Hf].
        destruct (sample_points_head max step fuel min (x0 :: rest) Hf) as [Hin Hout].
        destruct (min <=? max).
        - destruct (Hin eq_refl) as [ys Hys]. congruence.
        - discriminate (Hout eq_refl). }
      subst x0. apply (Hhit [] min rest eq_refl).
      * intros k Hk. simpl in Hk. lia.
      * rewrite !Harea; [reflexivity | |auto].
        intros x [<-|[]]. now left.
Qed.

Lemma bisector_first_point_reaching_half_witness :
  returns (fun fuel => defuzzifyBisector fuel flat_engine 0 1 0.1) 0.5
  /\ returns (fun fuel => defuzzifyBisector fuel undefined_engine 0 2 1) 0
  /\ returns (fun fuel => defuzzifyBisector fuel label_engine 0 2 1) 0.
Proof.
  assert (Ht : samples 0 1 0.1 tenth_points) by (exists 12%nat; reflexivity).
  assert (Hu : samples 0 2 1 unit_points) by (exists 4%nat; reflexivity).
  split; [|split].
  - destruct (bisector_first_point_reaching_half flat_engine 0 1 0.1 tenth_points Ht)
      as (Hhit & _).
    apply (Hhit (firstn 5 tenth_points) 0.5 (skipn 6 tenth_points) eq_refl).
    + intros k Hk. simpl in Hk.
      assert (E : k = 1%nat \/ k = 2%nat \/ k = 3%nat \/ k = 4%nat \/ k = 5%nat) by lia.
      destruct E as [->|[->|[->|[->| ->]]]]; reflexivity.
    + reflexivity.
  - destruct (bisector_first_point_reaching_half undefined_engine 0 2 1 unit_points Hu)
      as (_ & Hmiss & _).
    apply Hmiss. intros k Hk. simpl in Hk.
    assert (E : k = 1%nat \/ k = 2%nat \/ k = 3%nat) by lia.
    destruct E as [->|[->| ->]]; reflexivity.
  - destruct (bisector_first_point_reaching_half label_engine 0 2 1 unit_points Hu)
      as (_ & _ & Hzero).
    apply Hzero. intros x _. reflexivity.
Defined.

(** ** Mean-of-maxima defuzzification *)

Section MeanOfMaxima.

Variable mu : float -> float.


Lemma peak_snoc (l : list float) (x : float) :
  peak mu (l ++ [x]) = if peak mu l <? mu x then mu x else peak mu l.
Proof. unfold peak. now rewrite fold_left_app. Qed.

Lemma attaining_snoc (m : float) (l : list float) (x : float) :
  attaining mu m (l ++ [x])
  = attaining mu m l ++ (if mu x =? m then [x] else []).
Proof. unfold attaining. now rewrite filter_app. Qed.

Lemma attaining_none (m : float) (l : list float) :
  (forall y, In y l -> (mu y =? m) = false) -> attaining mu m l = [].
Proof.
  intros H. unfold attaining. induction l as [|y l IH]; simpl; [reflexivity|].
  rewrite (H y) by now left. apply IH. intros z Hz. apply H. now right.
Qed.

Lemma positive_somewhere_snoc (l : list float) (x : float) :
  positive_somewhere mu (l ++ [x]) = positive_somewhere mu l || (0 <? mu x).
Proof.
  unfold positive_somewhere. rewrite existsb_app. simpl. now rewrite orb_false_r.
Qed.

Lemma count_of_snoc (l : list float) (x : float) :
  count_of (l ++ [x]) = count_of l + 1.
Proof. unfold count_of. now rewrite fold_left_app. Qed.

Lemma fsum_snoc (l : list float) (x : float) : fsum (l ++ [x]) = fsum l + x.
Proof. unfold fsum. now rewrite fold_left_app. Qed.

Lemma fsum_from_first_snoc (l : list float) (x : float) :
  l <> [] -> fsum_from_first (l ++ [x]) = fsum_from_first l + x.
Proof.
  destruct l as [|h r]; [congruence|]. intros _. simpl. now rewrite fold_left_app.
Qed.

(** The loop invariant of [defuzzifyMOM]: the running maximum is the
    peak of the points read so far, no point read so far is above it, and
    the accumulator holds the sum and the count of all points read so far
    that equal it. *)
Lemma mom_fold_invariant (l : list float) :
  let a := fold_left (fun a x => mom_step (mu x) x a) l (mkMomAcc 0 0 0) in
  let pts := attaining mu (peak mu l) l in
  maxMu a = peak mu l
  /\ (forall y, In y l -> (peak mu l <? mu y) = false)
  /\ count a = count_of pts
  /\ sumX a = (if positive_somewhere mu l then fsum_from_first pts else fsum pts)
  /\ (positive_somewhere mu l = false -> peak mu l = 0)
  /\ (positive_somewhere mu l = true -> (0 <? peak mu l) = true /\ pts <> []).
Proof.
  induction l as [|x l IH] using rev_ind.
  - cbv zeta. simpl. repeat split; try reflexivity; try discriminate.
    intros y [].
  - cbv zeta in *. rewrite fold_left_app. simpl.
    set (a := fold_left (fun a x => mom_step (mu x) x a) l (mkMomAcc 0 0 0)) in *.
    destruct IH as (Hm & Hub & Hc & Hs & Hzero & Hpos).
    rewrite peak_snoc, positive_somewhere_snoc. unfold mom_step. rewrite Hm.
    destruct (peak mu l <? mu x) eqn:G.
    + (* a new, strictly greater maximum *)
      assert (Hx : (mu x =? mu x) = true) by (eapply ltb_eqb_refl; eauto).
      assert (P : (0 <? mu x) = true).
      { destruct (positive_somewhere mu l) eqn:F.
        - eapply ltb_trans; [apply Hpos; reflexivity | exact G].
        - rewrite (Hzero eq_refl) in G. exact G. }
      rewrite attaining_snoc, Hx, P, orb_true_r.
      rewrite attaining_none.
      2:{ intros y Hy. destruct (mu y =? mu x) eqn:E; [|reflexivity].
          rewrite <- (Hub y Hy). symmetry. eapply eqb_ltb_r; eauto. }
      simpl. repeat split; try reflexivity; try discriminate.
      intros y Hy. apply in_app_or in Hy. destruct Hy as [Hy|[<-|[]]].
      * destruct (mu x <? mu y) eqn:E; [|reflexivity].
        rewrite <- (Hub y Hy). symmetry. eapply ltb_trans; eauto.
      * apply ltb_irrefl.
    + rewrite attaining_snoc.
      assert (F : positive_somewhere mu l || (0 <? mu x) = positive_somewhere mu l).
      { destruct (positive_somewhere mu l) eqn:F; [reflexivity|].
        rewrite (Hzero eq_refl) in G. now rewrite G. }
      rewrite F.
      assert (Hub' : forall y, In y (l ++ [x]) -> (peak mu l <? mu y) = false).
      { intros y Hy. apply in_app_or in Hy.
        destruct Hy as [Hy|[<-|[]]]; [now apply Hub | exact G]. }
      destruct (mu x =? peak mu l) eqn:E.
      * (* equal to the running maximum: accumulated *)
        simpl. rewrite count_of_snoc, Hc, Hs.
        repeat split; try assumption.
        -- destruct (positive_somewhere mu l) eqn:P.
           ++ symmetry. apply fsum_from_first_snoc. now apply Hpos.
           ++ symmetry. apply fsum_snoc.
        -- now apply Hpos.
        -- intros Hnil. apply app_eq_nil in Hnil. destruct Hnil as [_ Hnil].
           discriminate.
      * (* below the running maximum (or NaN): skipped *)
        rewrite app_nil_r. repeat split; try assumption; now apply Hpos.
Qed.

Lemma mom_result_mean (l : list float) :
  mom_result (fold_left (fun a x => mom_step (mu x) x a) l (mkMomAcc 0 0 0))
  = mean_of_maxima mu l.
Proof.
  destruct (mom_fold_invariant l) as (_ & _ & Hc & Hs & _). cbv zeta in *.
  unfold mom_result, mean_of_maxima. cbv zeta. now rewrite Hc, Hs.
Qed.

(** The peak is 0 or a value of the curve at some point read. *)
Lemma peak_attained (l : list float) :
  peak mu l = 0 \/ exists x, In x l /\ mu x = peak mu l.
Proof.
  induction l as [|x l IH] using rev_ind; [now left|].
  rewrite peak_snoc. destruct (peak mu l <? mu x).
  - right. exists x. split; [apply in_or_app; right; now left | reflexivity].
  - destruct IH as [E|(y & Hy & E)]; [now left|].
    right. exists y. split; [apply in_or_app; now left | exact E].
Qed.

(** On a curve that is 0 at every point read, the accumulator keeps the
    maximum 0 and takes in every point. *)
Lemma mom_fold_flat_zero (l : list float) (s c : float) :
  (forall x, In x l -> (mu x =? 0) = true) ->
  fold_left (fun a x => mom_step (mu x) x a) l (mkMomAcc 0 s c)
  = mkMomAcc 0 (fold_left add l s) (fold_left (fun c _ => c + 1) l c).
Proof.
  revert s c; induction l as [|x l IH]; intros s c H; simpl; [reflexivity|].
  assert (Hx : (mu x =? 0) = true) by (apply H; now left).
  unfold mom_step at 2. simpl.
  rewrite (eqb_zero_not_positive _ Hx), Hx. apply IH.
  intros y Hy. apply H. now right.
Qed.

End MeanOfMaxima.

Lemma defuzzifyMOM_returns {Input : Type} (e : InferenceEngine Input)
      (min max step : float) (xs : list float) :
  samples min max step xs ->
  returns (fun fuel => defuzzifyMOM fuel e min max step)
          (mean_of_maxima (aggregate_curve e) xs).
Proof.
  intros Hs. unfold defuzzifyMOM.
  apply (returns_of_samples _ _ _ _ _ xs); [exact Hs|].
  rewrite (run_body_fold
             (fun x a => mom_step (aggregate_mu (getFuzzySetConsequences e) x) x a)).
  apply (mom_result_mean (aggregate_curve e)).
Qed.

(** C3, as the code has it: whenever the sampling loop ends, having
    visited the points xs, defuzzifyMOM returns the mean of all points of
    xs at which the aggregate curve equals its peak over xs (the largest
    of 0 and the sampled values): their sum over their count, 0 when
    there is none.  No sampled value is above the peak, the peak is 0 or
    a sampled value, and every sampled point at the peak is averaged in,
    wherever it lies, also one that re-attains the peak after a dip; when
    there is such a point its count is not 0. *)
Theorem mom_averages_all_peak_points
        {Input : Type} (e : InferenceEngine Input) (min max step : float)
        (xs : list float) :
  samples min max step xs ->
  returns (fun fuel => defuzzifyMOM fuel e min max step)
          (mean_of_maxima (aggregate_curve e) xs)
  /\ (forall x, In x xs -> (peak (aggregate_curve e) xs <? aggregate_curve e x) = false)
  /\ (peak (aggregate_curve e) xs = 0
      \/ exists x, In x xs /\ aggregate_curve e x = peak (aggregate_curve e) xs)
  /\ (forall x,
        In x (attaining (aggregate_curve e) (peak (aggregate_curve e) xs) xs)
        <-> In x xs /\ (aggregate_curve e x =? peak (aggregate_curve e) xs) = true)
  /\ (attaining (aggregate_curve e) (peak (aggregate_curve e) xs) xs <> [] ->
      (count_of (attaining (aggregate_curve e) (peak (aggregate_curve e) xs) xs) =? 0)
      = false).
Proof.
  intros Hs.
  split; [now apply defuzzifyMOM_returns|].
  split; [apply (mom_fold_invariant (aggregate_curve e) xs)|].
  split; [apply peak_attained|].
  split; [|apply count_of_not_zero].
  intros x. unfold attaining.
  exact (filter_In (fun y => aggregate_curve e y =? peak (aggregate_curve e) xs) x xs).
Qed.

Lemma mom_averages_all_peak_points_witness :
  returns (fun fuel => defuzzifyMOM fuel notch_engine 0 2 1) 1
  /\ returns (fun fuel => defuzzifyMOM fuel flat_engine 0 1 0.1) 0.5.
Proof.
  split.
  - apply (mom_averages_all_peak_points notch_engine 0 2 1 unit_points).
    exists 4%nat. reflexivity.
  - apply (mom_averages_all_peak_points flat_engine 0 1 0.1 tenth_points).
    exists 12%nat. reflexivity.
Defined.

(** C3, as stated: the single-run reading fails.  On the curve 1, 1/2, 1
    sampled at 0, 1, 2 the peak is attained on the two runs [0] and [2],
    and the returned mean is 1 = (0 + 2) / 2, the mean of neither run. *)
Lemma mom_single_run_policy_fails : ~ @mom_single_run_policy ticket.
Proof.
  intros H.
  assert (Hs : samples 0 2 1 unit_points) by (exists 4%nat; reflexivity).
  destruct (H notch_engine 0 2 1 unit_points Hs) as (run & Hin & Hret).
  - vm_compute. lia.
  - pose proof (defuzzifyMOM_returns notch_engine 0 2 1 unit_points Hs) as Hone.
    pose proof (returns_unique _ _ _ Hret Hone) as E.
    change (equal_runs (aggregate_curve notch_engine)
                       (peak (aggregate_curve notch_engine) unit_points) unit_points)
      with [[0]; [2]] in Hin.
    assert (F : forall v : float, v = 1 -> (v =? 1) = true) by (intros v ->; reflexivity).
    apply F in E.
    destruct Hin as [<-|[<-|[]]]; discriminate E.
Qed.

(** C9: whenever the sampling loop ends on a domain with min <= max,
    having visited the points xs, and the aggregate curve is 0 at every
    point of xs, as it is for an engine without FuzzySet-valued
    consequences, the running maximum stays at its initial 0, every point
    of xs is accumulated, and defuzzifyMOM returns the arithmetic mean of
    all sampled x-values: their sum over their count.  xs is not empty
    and its count is not 0, so the answer is that quotient and not the 0
    of the guard. *)
Theorem mom_of_zero_curve_is_sample_mean
        {Input : Type} (e : InferenceEngine Input) (min max step : float)
        (xs : list float) :
  samples min max step xs ->
  (min <=? max) = true ->
  xs <> []
  /\ (count_of xs =? 0) = false
  /\ ((forall x, In x xs -> (aggregate_curve e x =? 0) = true) ->
      returns (fun fuel => defuzzifyMOM fuel e min max step)
              (fsum xs / count_of xs))
  /\ (getFuzzySetConsequences e = [] ->
      forall x, In x xs -> (aggregate_curve e x =? 0) = true).
Proof.
  intros Hs Hdom.
  assert (Hne : xs <> []).
  { destruct Hs as [fuel Hf].
    destruct (sample_points_head max step fuel min xs Hf) as [Hin _].
    destruct (Hin Hdom) as [ys ->]. discriminate. }
  split; [exact Hne|]. split; [now apply count_of_not_zero|]. split.
  - intros Hz. unfold defuzzifyMOM.
    apply (returns_of_samples _ _ _ _ _ xs); [exact Hs|].
    rewrite (run_body_fold
               (fun x a => mom_step (aggregate_mu (getFuzzySetConsequences e) x) x a)).
    rewrite (mom_fold_flat_zero (aggregate_mu (getFuzzySetConsequences e)) xs 0 0 Hz).
    unfold mom_result. simpl.
    change (fold_left (fun c _ => c + 1) xs 0) with (count_of xs).
    now rewrite (count_of_not_zero xs Hne).
  - intros Hnone x _. unfold aggregate_curve. rewrite Hnone. reflexivity.
Qed.

Lemma mom_of_zero_curve_is_sample_mean_witness :
  returns (fun fuel => defuzzifyMOM fuel label_engine 0 1 0.1) 0.5
  /\ length tenth_points = 11%nat.
Proof.
  assert (Hs : samples 0 1 0.1 tenth_points) by (exists 12%nat; reflexivity).
  destruct (mom_of_zero_curve_is_sample_mean label_engine 0 1 0.1 tenth_points Hs)
    as (_ & _ & Hmean & Hnone).
  - reflexivity.
  - split; [|reflexivity].
    apply Hmean. apply Hnone. reflexivity.
Defined.

(** ** The bisector is min or a sampled point *)

Lemma sample_points_below_max (max step : float) (fuel : nat) (x : float)
      (xs : list float) :
  sample_points fuel x max step = Some xs ->
  forall y, In y xs -> (y <=? max) = true.
Proof.
  revert x xs; induction fuel as [|k IH]; intros x xs H; [discriminate|].
  simpl in H. destruct (x <=? max) eqn:Hx.
  - destruct (sample_points k (x + step) max step) as [ys|] eqn:E; [|discriminate].
    injection H as <-. intros y [<-|Hy]; [exact Hx | now apply (IH _ _ E)].
  - injection H as <-. intros y [].
Qed.

Lemma bisector_of_run (mu : float -> float) (totalArea step : float)
      (xs : list float) (a : bisector_acc) :
  bisector (run_body (fun x a => bisector_step totalArea step (mu x) x a) xs a)
  = bisector a
  \/ In (bisector (run_body (fun x a => bisector_step totalArea step (mu x) x a) xs a))
        xs.
Proof.
  revert a; induction xs as [|x xs IH]; intros a; cbn [run_body]; [now left|].
  destruct (bisector_step totalArea step (mu x) x a) as [a'|a'] eqn:E;
    unfold bisector_step in E; cbv zeta in E;
    destruct (totalArea / 2 <=? leftArea a + mu x * step); try discriminate;
    injection E as <-.
  - destruct (IH (mkBisectorAcc (leftArea a + mu x * step) (bisector a))) as [F|F].
    + left. exact F.
    + right. now right.
  - right. now left.
Qed.

(** Whenever the sampling loop ends, defuzzifyBisector returns min or one
    of the sampled points, and every sampled point passed the loop test
    x <= max: the result is never a value the loop did not visit. *)
Theorem bisector_is_min_or_sampled
        {Input : Type} (e : InferenceEngine Input) (min max step : float)
        (xs : list float) :
  samples min max step xs ->
  exists v,
    returns (fun fuel => defuzzifyBisector fuel e min max step) v
    /\ (v = min \/ In v xs)
    /\ (forall x, In x xs -> (x <=? max) = true).
Proof.
  intros Hs. eexists. split; [|split].
  - apply (defuzzifyBisector_returns e min max step xs _ Hs). reflexivity.
  - apply (bisector_of_run (aggregate_curve e) _ step xs (mkBisectorAcc 0 min)).
  - destruct Hs as [fuel Hf]. now apply (sample_points_below_max max step fuel min).
Qed.

Lemma bisector_is_min_or_sampled_witness :
  exists v,
    returns (fun fuel => defuzzifyBisector fuel notch_engine 0 2 1) v
    /\ (v = 0 \/ In v unit_points)
    /\ (forall x, In x unit_points -> (x <=? 2) = true).
Proof.
  apply (bisector_is_min_or_sampled notch_engine 0 2 1 unit_points).
  exists 4%nat. reflexivity.
Defined.

(** ** The sampled points, one rounded addition at a time *)




(** ** Total weights that give no mean *)

(** Weights are not validated: whenever the accumulated total weight of
    the matching rules is not above 0 (zero, negative or NaN), infer
    answers "Low Priority" whatever the rules say; and so it does when
    both accumulated sums overflow to infinity, their quotient being
    NaN. *)
Theorem infer_low_on_nonpositive_total_weight
        {Input : Type} (e : InferenceEngine Input) (inputs : Input) :
  ((0 <? weight_sum e inputs) = false -> infer e inputs = "Low Priority"%string)
  /\ (weight_sum e inputs = infinity -> score_sum e inputs = infinity ->
      infer e inputs = "Low Priority"%string).
Proof.
  rewrite infer_sums_binary64. split.
  - intros H. destruct (matched_rules e inputs); [reflexivity|]. now rewrite H.
  - intros Hw Hs. destruct (matched_rules e inputs); [reflexivity|].
    rewrite Hw, Hs. reflexivity.
Qed.

Lemma infer_low_on_nonpositive_total_weight_witness :
  infer negative_engine (mkTicket 1 0) = "Low Priority"%string
  /\ infer overflow_engine (mkTicket 1 0) = "Low Priority"%string.
Proof.
  destruct (infer_low_on_nonpositive_total_weight negative_engine (mkTicket 1 0))
    as [Hneg _].
  destruct (infer_low_on_nonpositive_total_weight overflow_engine (mkTicket 1 0))
    as [_ Hinf].
  split; [apply Hneg | apply Hinf]; reflexivity.
Defined.

End Binary64Laws.
